(** * Earthworm chat client: sessions, persistence, dispatch and recording

    A shallow embedding of the client-side chat core of the repository:

    - [ChatService]  from [src/services/chatService.ts]
      (remote dispatch with the development fallback, and the bounded
      session history kept in [localStorage]);
    - [ChatPage]     from the handlers of [src/pages/ChatPage.tsx]
      (title derivation, the send flow, the in-memory session index);
    - [ChatInput]    from the handlers of [src/components/chat/ChatInput.tsx]
      (the composer guard and the voice-recording controller).

    JavaScript strings are sequences of UTF-16 code units, [Date] objects
    are millisecond time values, and the history is stored as JSON text;
    the [Js] module gives these platform notions the meaning that
    ECMAScript gives them, as far as the handlers above use them. *)

From Stdlib Require Import ZArith NArith String Ascii Lia.
From stdpp Require Import base option list.

Open Scope Z_scope.

(* ================================================================== *)
(** * Platform: strings, truthiness, dates *)
(* ================================================================== *)

Module Js.

(** ** Strings *)

(** A string is a sequence of UTF-16 code units; [length] of the list is
    the [.length] of the string. *)
Definition codeunit := N.
Definition jsstring := list codeunit.

(** Source literals are written as UTF-8 text; [utf16] gives the code
    units the engine holds for them. *)
Fixpoint utf8_decode (bs : list N) : list N :=
  match bs with
  | [] => []
  | b :: r =>
      if (b <? 128)%N then b :: utf8_decode r
      else if (b <? 224)%N then
        match r with
        | c1 :: r1 => ((b mod 32) * 64 + c1 mod 64)%N :: utf8_decode r1
        | _ => []
        end
      else if (b <? 240)%N then
        match r with
        | c1 :: c2 :: r2 =>
            ((b mod 16) * 4096 + (c1 mod 64) * 64 + c2 mod 64)%N
              :: utf8_decode r2
        | _ => []
        end
      else
        match r with
        | c1 :: c2 :: c3 :: r3 =>
            ((b mod 8) * 262144 + (c1 mod 64) * 4096
             + (c2 mod 64) * 64 + c3 mod 64)%N :: utf8_decode r3
        | _ => []
        end
  end.

Definition utf16_encode (cp : N) : list codeunit :=
  if (cp <? 65536)%N then [cp]
  else [(55296 + (cp - 65536) / 1024)%N; (56320 + (cp - 65536) mod 1024)%N].

Definition utf16 (s : string) : jsstring :=
  List.concat (map utf16_encode
                 (utf8_decode (map N_of_ascii (list_ascii_of_string s)))).

(** The quotation mark, U+0022. *)
Definition dquote : jsstring := [34%N].

(** [!s] is true exactly for the empty string. *)
Definition truthy (s : jsstring) : bool :=
  match s with [] => false | _ => true end.

(** An optional argument ([undefined] when absent) is truthy when it is
    present and not the empty string. *)
Definition truthy_opt (o : option jsstring) : bool :=
  match o with Some s => truthy s | None => false end.

(** [String.prototype.trim] removes WhiteSpace and LineTerminator code
    points from both ends. *)
Definition is_space (c : codeunit) : bool :=
  ((9 <=? c) && (c <=? 13) || (c =? 32) || (c =? 160) || (c =? 5760)
   || (8192 <=? c) && (c <=? 8202) || (c =? 8232) || (c =? 8233)
   || (c =? 8239) || (c =? 8287) || (c =? 12288) || (c =? 65279))%N.

Fixpoint trimStart (s : jsstring) : jsstring :=
  match s with
  | c :: r => if is_space c then trimStart r else s
  | [] => []
  end.

Definition trimEnd (s : jsstring) : jsstring := rev (trimStart (rev s)).

Definition trim (s : jsstring) : jsstring := trimEnd (trimStart s).

(** [s.substring(0, n)] for a non-negative integer [n]. *)
Definition substring0 (n : nat) (s : jsstring) : jsstring := take n s.

(** [s.substring(a, b)] for integers [0 <= a <= b]. *)
Definition substring (a b : nat) (s : jsstring) : jsstring :=
  drop a (take b s).

(** [s.padStart(n, c)] for a one-unit filler [c]. *)
Definition padStart (n : nat) (c : codeunit) (s : jsstring) : jsstring :=
  replicate (n - length s) c ++ s.

(** [s.includes(sub)]. *)
Fixpoint starts_with (sub s : jsstring) : bool :=
  match sub, s with
  | [], _ => true
  | a :: sub', b :: s' => (a =? b)%N && starts_with sub' s'
  | _ :: _, [] => false
  end.

Fixpoint includes (sub s : jsstring) : bool :=
  starts_with sub s
  || match s with [] => false | _ :: s' => includes sub s' end.

(** ** Numbers printed in decimal *)

Definition digit (d : Z) : codeunit := Z.to_N (48 + d).

Fixpoint digits_fuel (fuel : nat) (n : Z) (acc : jsstring) : jsstring :=
  match fuel with
  | O => acc
  | S fuel' =>
      let acc' := digit (n mod 10) :: acc in
      if n / 10 =? 0 then acc' else digits_fuel fuel' (n / 10) acc'
  end.

(** [n.toString()] for an integer [n] (below 10^21 in magnitude, where
    the engine prints all the digits). *)
Definition Number_toString (n : Z) : jsstring :=
  if n <? 0 then 45%N :: digits_fuel 22 (- n) []
  else digits_fuel 22 n [].

(** ** Dates *)

(** A [Date] object holds a time value: an integral number of
    milliseconds since the epoch, at most 8.64e15 in magnitude, or NaN
    (an "Invalid Date"). *)
Inductive Date :=
| Time (t : Z)
| InvalidDate.

Definition maxTime : Z := 8640000000000000.

Definition in_range (t : Z) : bool := (- maxTime <=? t) && (t <=? maxTime).

(** [TimeClip], as applied by the [Date] constructor. *)
Definition TimeClip (t : Z) : Date :=
  if in_range t then Time t else InvalidDate.

Definition valid_date (d : Date) : bool :=
  match d with Time t => in_range t | InvalidDate => false end.

(** *** The proleptic Gregorian calendar *)

Definition msPerDay : Z := 86400000.

(** Day number (days since the epoch) to year, month (1..12), day (1..31),
    by 400-year eras that start on 1 March. *)
Definition civil_from_days (z : Z) : Z * Z * Z :=
  let z' := z + 719468 in
  let era := z' / 146097 in
  let doe := z' mod 146097 in
  let yoe := (doe - doe / 1460 + doe / 36524 - doe / 146096) / 365 in
  let doy := doe - (365 * yoe + yoe / 4 - yoe / 100) in
  let mp := (5 * doy + 2) / 153 in
  let d := doy - (153 * mp + 2) / 5 + 1 in
  let m := if mp <? 10 then mp + 3 else mp - 9 in
  let y := yoe + era * 400 in
  ((if m <=? 2 then y + 1 else y), m, d).

Definition days_from_civil (y m d : Z) : Z :=
  let y' := if m <=? 2 then y - 1 else y in
  let era := y' / 400 in
  let yoe := y' mod 400 in
  let doy := (153 * (if 2 <? m then m - 3 else m + 9) + 2) / 5 + d - 1 in
  let doe := yoe * 365 + yoe / 4 - yoe / 100 + doy in
  era * 146097 + doe - 719468.

Definition is_leap (y : Z) : bool :=
  (y mod 4 =? 0) && (negb (y mod 100 =? 0) || (y mod 400 =? 0)).

Definition days_in_month (y m : Z) : Z :=
  if m =? 2 then (if is_leap y then 29 else 28)
  else if (m =? 4) || (m =? 6) || (m =? 9) || (m =? 11) then 30
  else 31.

(** Every day of the era that starts on 0000-03-01 is checked by
    evaluation: [day_ok] holds of day [z] when the two conversions agree
    on it and give a date of the calendar. *)
Definition day_ok (z : Z) : bool :=
  let '(y, m, d) := civil_from_days z in
  (days_from_civil y m d =? z) && (1 <=? m) && (m <=? 12) && (1 <=? d)
  && (d <=? days_in_month y m) && (0 <=? y) && (y <=? 400).

Fixpoint all_from (f : Z -> bool) (z : Z) (n : nat) : bool :=
  match n with
  | O => true
  | S n' => f z && all_from f (z + 1) n'
  end.

(** *** [Date.prototype.toISOString] *)

Definition pad2 (n : Z) : jsstring := [digit (n / 10); digit (n mod 10)].
Definition pad3 (n : Z) : jsstring :=
  [digit (n / 100); digit (n / 10 mod 10); digit (n mod 10)].
Definition pad4 (n : Z) : jsstring :=
  [digit (n / 1000); digit (n / 100 mod 10); digit (n / 10 mod 10);
   digit (n mod 10)].
Definition pad6 (n : Z) : jsstring :=
  [digit (n / 100000); digit (n / 10000 mod 10); digit (n / 1000 mod 10);
   digit (n / 100 mod 10); digit (n / 10 mod 10); digit (n mod 10)].

(** Years 0..9999 take four digits, all others a sign and six digits. *)
Definition iso_year (y : Z) : jsstring :=
  if (0 <=? y) && (y <=? 9999) then pad4 y
  else (if y <? 0 then 45%N else 43%N) :: pad6 (Z.abs y).

(** [YYYY-MM-DDTHH:mm:ss.sssZ] from the broken-down fields. *)
Definition iso_fields (y mo d h mi s ms : Z) : jsstring :=
  iso_year y ++ 45%N :: pad2 mo ++ 45%N :: pad2 d ++ 84%N :: pad2 h
    ++ 58%N :: pad2 mi ++ 58%N :: pad2 s ++ 46%N :: pad3 ms ++ [90%N].

Definition toISOString (t : Z) : jsstring :=
  let day := t / msPerDay in
  let tod := t mod msPerDay in
  let '(y, mo, d) := civil_from_days day in
  iso_fields y mo d (tod / 3600000) (tod / 60000 mod 60)
    (tod / 1000 mod 60) (tod mod 1000).

(** *** [Date.parse], on the format above *)

Definition digit_val (c : codeunit) : option Z :=
  if ((48 <=? c) && (c <=? 57))%N then Some (Z.of_N c - 48) else None.

Fixpoint number_of (cs : list codeunit) (acc : Z) : option Z :=
  match cs with
  | [] => Some acc
  | c :: r =>
      match digit_val c with
      | Some v => number_of r (10 * acc + v)
      | None => None
      end
  end.

(** The part after the year: [-MM-DDTHH:mm:ss.sssZ]. *)
Definition parse_rest (y : Z) (cs : list codeunit) : option Z :=
  match cs with
  | [c1; m1; m2; c2; d1; d2; c3; h1; h2; c4; i1; i2; c5; s1; s2; c6;
     f1; f2; f3; c7] =>
      if ((c1 =? 45) && (c2 =? 45) && (c3 =? 84) && (c4 =? 58)
          && (c5 =? 58) && (c6 =? 46) && (c7 =? 90))%N
      then
        match number_of [m1; m2] 0, number_of [d1; d2] 0,
              number_of [h1; h2] 0, number_of [i1; i2] 0,
              number_of [s1; s2] 0, number_of [f1; f2; f3] 0 with
        | Some mo, Some d, Some h, Some mi, Some s, Some ms =>
            if (1 <=? mo) && (mo <=? 12) && (1 <=? d)
               && (d <=? days_in_month y mo) && (h <=? 23) && (mi <=? 59)
               && (s <=? 59)
            then Some (days_from_civil y mo d * msPerDay + h * 3600000
                       + mi * 60000 + s * 1000 + ms)
            else None
        | _, _, _, _, _, _ => None
        end
      else None
  | _ => None
  end.

(** The time value of an ISO date-time string, or [None] (NaN).  Only the
    complete UTC form that [toISOString] emits is recognised; the store of
    this program holds no other timestamp strings. *)
Definition parse_iso (s : jsstring) : option Z :=
  match s with
  | sg :: y1 :: y2 :: y3 :: y4 :: y5 :: y6 :: rest =>
      if ((sg =? 43) || (sg =? 45))%N then
        match number_of [y1; y2; y3; y4; y5; y6] 0 with
        | Some y =>
            if (sg =? 45)%N
            then (if y =? 0 then None else parse_rest (- y) rest)
            else parse_rest y rest
        | None => None
        end
      else
        match number_of [sg; y1; y2; y3] 0 with
        | Some y => parse_rest y (y4 :: y5 :: y6 :: rest)
        | None => None
        end
  | _ => None
  end.

(** [new Date(s)] for a string [s]. *)
Definition Date_of_string (s : jsstring) : Date :=
  match parse_iso s with
  | Some t => TimeClip t
  | None => InvalidDate
  end.

End Js.

Import Js.

(* ================================================================== *)
(** * Data model ([src/types]) *)
(* ================================================================== *)

Inductive Role := user | assistant.

(** The records are parametric in the representation [D] of a point in
    time: [Date] for the objects the program works on, [JsonDate] for what
    [JSON.parse] returns from their serialised form.  An optional field is
    [None] when it is [undefined] or missing, which [JSON.stringify] does
    not tell apart. *)
Record MessageOf (D : Type) := mkMessage {
  msg_id : jsstring;
  role : Role;
  content : jsstring;
  timestamp : D;
  imageUrl : option jsstring;
  audioUrl : option jsstring
}.

Record ChatSessionOf (D : Type) := mkSession {
  id : jsstring;
  title : jsstring;
  messages : list (MessageOf D);
  createdAt : D;
  updatedAt : D
}.

Arguments mkMessage {D}.
Arguments msg_id {D}.
Arguments role {D}.
Arguments content {D}.
Arguments timestamp {D}.
Arguments imageUrl {D}.
Arguments audioUrl {D}.
Arguments mkSession {D}.
Arguments id {D}.
Arguments title {D}.
Arguments messages {D}.
Arguments createdAt {D}.
Arguments updatedAt {D}.

Abbreviation Message := (MessageOf Date).
Abbreviation ChatSession := (ChatSessionOf Date).

Inductive Language := en | hi | ta | te | kn | ml | bn | mr | gu | pa.

Definition supported : list Language := [en; hi; ta; te; kn; ml; bn; mr; gu; pa].

(** The string a [Language] is at run time. *)
Definition code (l : Language) : jsstring :=
  utf16 match l with
        | en => "en" | hi => "hi" | ta => "ta" | te => "te" | kn => "kn"
        | ml => "ml" | bn => "bn" | mr => "mr" | gu => "gu" | pa => "pa"
        end.

Record ChatRequest := mkRequest {
  text : jsstring;
  image_base64 : option jsstring;
  audio_file : option jsstring;
  session_id : jsstring;
  language : Language
}.

Record ChatResponse := mkResponse {
  response : jsstring;
  response_session_id : jsstring;
  response_timestamp : jsstring
}.

(** ** Functional record update *)

Definition with_messages {D} (ms : list (MessageOf D)) (s : ChatSessionOf D) :=
  mkSession (id s) (title s) ms (createdAt s) (updatedAt s).
Definition with_updatedAt {D} (d : D) (s : ChatSessionOf D) :=
  mkSession (id s) (title s) (messages s) (createdAt s) d.
Definition with_title {D} (t : jsstring) (s : ChatSessionOf D) :=
  mkSession (id s) t (messages s) (createdAt s) (updatedAt s).

(* ================================================================== *)
(** * The browser the page runs in *)
(* ================================================================== *)

(** A timestamp in JSON text: [Date.prototype.toJSON] gives the ISO string
    of a valid date and [null] for an invalid one. *)
Inductive JsonDate :=
| JNull
| JString (s : jsstring).

(** The text stored under the key ["earthworm-chat-history"], up to
    [JSON.parse]: either text on which the [try] block of
    [getChatHistory] throws (not JSON, or not an array of session
    objects), or the JSON text of an array of sessions. *)
Inductive StoredText :=
| Unreadable
| HistoryText (h : list (ChatSessionOf JsonDate)).

(** What the remote endpoint answers to one [fetch]. *)
Inductive FetchResult :=
| FetchFailed
    (* the promise rejects: no connection *)
| FetchOk (body : option ChatResponse)
    (* a 2xx status; [None] when the body is not JSON *)
| FetchNotOk (status : Z) (detail : option jsstring).
    (* another status; [detail] of the JSON body, when it has one *)

Record World := mkWorld {
  localStorage : option StoredText;   (* the item, [None] when not set *)
  quota : StoredText -> bool;         (* the texts that [setItem] accepts *)
  sessionId : jsstring;               (* [chatService.sessionId] *)
  network : list ChatRequest;         (* requests issued, oldest first *)
  clock : nat -> Z;                   (* successive readings of the clock *)
  reads : nat                         (* readings taken so far *)
}.

Definition set_localStorage (v : option StoredText) (w : World) : World :=
  mkWorld v (quota w) (sessionId w) (network w) (clock w) (reads w).

(** [Date.now()]. *)
Definition Date_now (w : World) : Z * World :=
  (clock w (reads w),
   mkWorld (localStorage w) (quota w) (sessionId w) (network w) (clock w)
     (S (reads w))).

(** [new Date()]. *)
Definition Date_new (w : World) : Date * World :=
  let '(t, w') := Date_now w in (TimeClip t, w').

(** [new Date(v)] for a value read from JSON: [null] converts to the
    number 0. *)
Definition Date_of_json (v : JsonDate) : Date :=
  match v with
  | JNull => Time 0
  | JString s => Date_of_string s
  end.

Definition Date_toJSON (d : Date) : JsonDate :=
  match d with
  | Time t => if in_range t then JString (toISOString t) else JNull
  | InvalidDate => JNull
  end.

(** A session all of whose timestamps are valid dates. *)
Definition valid_message (m : Message) : bool := valid_date (timestamp m).

Definition valid_session (s : ChatSession) : bool :=
  valid_date (createdAt s) && valid_date (updatedAt s)
  && forallb valid_message (messages s).

(* ================================================================== *)
(** * [chatService.ts] *)
(* ================================================================== *)

Module ChatService.

(** ** The session id of the service *)

(** [generateSessionId]; [random36] is [Math.random().toString(36)]. *)
Definition generateSessionId (random36 : jsstring) : jsstring :=
  utf16 "session_" ++ substring 2 15 random36.

Definition getSessionId (w : World) : jsstring := sessionId w.

Definition resetSession (random36 : jsstring) (w : World) : World :=
  mkWorld (localStorage w) (quota w) (generateSessionId random36) (network w)
    (clock w) (reads w).

(** ** Dispatch *)

Inductive ChatError :=
| FetchError                       (* thrown by [fetch] *)
| BodyError                        (* thrown by [response.json()] *)
| HttpError (message : jsstring).  (* [new Error(...)] on [!response.ok] *)

Inductive Outcome :=
| Resolved (response : jsstring)
| Rejected (error : ChatError).

(** The value of a property read on an object literal whose own
    properties are strings. *)
Inductive PropertyValue :=
| OwnString (s : jsstring)
| Inherited (name : jsstring)   (* a member of [Object.prototype] *)
| Undefined.

Definition value_truthy (v : PropertyValue) : bool :=
  match v with
  | OwnString s => truthy s
  | Inherited _ => true
  | Undefined => false
  end.

Definition object_prototype : list jsstring :=
  map utf16
    ["constructor"; "__defineGetter__"; "__defineSetter__";
     "hasOwnProperty"; "__lookupGetter__"; "__lookupSetter__";
     "isPrototypeOf"; "propertyIsEnumerable"; "toString"; "valueOf";
     "__proto__"; "toLocaleString"]%string.

Fixpoint own_property (o : list (jsstring * jsstring)) (key : jsstring)
  : option jsstring :=
  match o with
  | [] => None
  | (k, v) :: o' => if decide (k = key) then Some v else own_property o' key
  end.

(** [o[key]]: own properties first, then the prototype. *)
Definition get (o : list (jsstring * jsstring)) (key : jsstring)
  : PropertyValue :=
  match own_property o key with
  | Some v => OwnString v
  | None =>
      if decide (key ∈ object_prototype) then Inherited key else Undefined
  end.

(** The table of [getFallbackResponse], one template per language. *)
Definition responses (text : jsstring) : list (jsstring * jsstring) :=
  [ (utf16 "en",
     utf16 "I received your message: "
       ++ dquote ++ text ++ dquote
       ++ utf16 ". This is a fallback response for development. Please ensure the Python backend is running on port 8000.");
    (utf16 "hi",
     utf16 "मैंने आपका संदेश प्राप्त किया: "
       ++ dquote ++ text ++ dquote
       ++ utf16 "। यह विकास के लिए एक फॉलबैक प्रतिक्रिया है। कृपया सुनिश्चित करें कि Python बैकएंड पोर्ट 8000 पर चल रहा है।");
    (utf16 "ta",
     utf16 "உங்கள் செய்தியைப் பெற்றேன்: "
       ++ dquote ++ text ++ dquote
       ++ utf16 ". இது வளர்ச்சிக்கான மாற்று பதில். பைதான் பின்தளம் போர்ட் 8000 இல் இயங்குவதை உறுதி செய்யவும்.");
    (utf16 "te",
     utf16 "మీ సందేశం అందుకున్నాను: "
       ++ dquote ++ text ++ dquote
       ++ utf16 ". ఇది అభివృద్ధి కోసం ఫాల్‌బ్యాక్ ప్రతిస్పందన. Python బ్యాక్‌ఎండ్ పోర్ట్ 8000లో నడుస్తోందని నిర్ధారించుకోండి.");
    (utf16 "kn",
     utf16 "ನಿಮ್ಮ ಸಂದೇಶವನ್ನು ಸ್ವೀಕರಿಸಿದ್ದೇನೆ: "
       ++ dquote ++ text ++ dquote
       ++ utf16 ". ಇದು ಅಭಿವೃದ್ಧಿಗಾಗಿ ಫಾಲ್‌ಬ್ಯಾಕ್ ಪ್ರತಿಕ್ರಿಯೆ. Python ಬ್ಯಾಕ್‌ಎಂಡ್ ಪೋರ್ಟ್ 8000 ರಲ್ಲಿ ಚಾಲನೆಯಲ್ಲಿದೆ ಎಂದು ಖಚಿತಪಡಿಸಿಕೊಳ್ಳಿ.");
    (utf16 "ml",
     utf16 "നിങ്ങളുടെ സന്ദേശം സ്വീകരിച്ചു: "
       ++ dquote ++ text ++ dquote
       ++ utf16 ". ഇത് വികസനത്തിനായുള്ള ഫോൾബാക്ക് പ്രതികരണമാണ്. Python ബാക്ക്എൻഡ് പോർട്ട് 8000-ൽ പ്രവർത്തിക്കുന്നുണ്ടോയെന്ന് ഉറപ്പാക്കുക.");
    (utf16 "bn",
     utf16 "আমি আপনার বার্তা পেয়েছি: "
       ++ dquote ++ text ++ dquote
       ++ utf16 "। এটি উন্নয়নের জন্য একটি ফলব্যাক প্রতিক্রিয়া। অনুগ্রহ করে নিশ্চিত করুন যে Python ব্যাকএন্ড পোর্ট 8000-এ চলছে।");
    (utf16 "mr",
     utf16 "मला तुमचा संदेश मिळाला: "
       ++ dquote ++ text ++ dquote
       ++ utf16 ". हे विकासासाठी एक फॉलबॅक प्रतिसाद आहे. कृपया खात्री करा की Python बॅकएंड पोर्ट 8000 वर चालू आहे.");
    (utf16 "gu",
     utf16 "મેં તમારો સંદેશ પ્રાપ્ત કર્યો: "
       ++ dquote ++ text ++ dquote
       ++ utf16 ". આ વિકાસ માટે ફોલબેક પ્રતિસાદ છે. કૃપા કરીને ખાતરી કરો કે Python બેકએન્ડ પોર્ટ 8000 પર ચાલી રહ્યું છે.");
    (utf16 "pa",
     utf16 "ਮੈਂ ਤੁਹਾਡਾ ਸੰਦੇਸ਼ ਪ੍ਰਾਪਤ ਕੀਤਾ: "
       ++ dquote ++ text ++ dquote
       ++ utf16 ". ਇਹ ਵਿਕਾਸ ਲਈ ਇੱਕ ਫੌਲਬੈਕ ਜਵਾਬ ਹੈ। ਕਿਰਪਾ ਕਰਕੇ ਯਕੀਨੀ ਬਣਾਓ ਕਿ Python ਬੈਕਐਂਡ ਪੋਰਟ 8000 'ਤੇ ਚੱਲ ਰਿਹਾ ਹੈ।") ].

(** [language] is declared a [Language] and is a string at run time; the
    function is defined on every string. *)
Definition getFallbackResponse (text : jsstring) (language : jsstring)
  : PropertyValue :=
  let responses := responses text in
  if value_truthy (get responses language)
  then get responses language
  else get responses (utf16 "en").

(** The declared result type [string] of a property value. *)
Definition as_string (v : PropertyValue) : jsstring :=
  match v with OwnString s => s | _ => [] end.

(** [errorData.detail || `HTTP error! status: ${response.status}`] *)
Definition error_message (status : Z) (detail : option jsstring) : jsstring :=
  match detail with
  | Some d => if truthy d then d
              else utf16 "HTTP error! status: " ++ Number_toString status
  | None => utf16 "HTTP error! status: " ++ Number_toString status
  end.

(** The [try] block of [sendMessage], after the request has been sent: the
    value it returns, or the error it throws. *)
Definition receive (reply : FetchResult) : Outcome :=
  match reply with
  | FetchFailed => Rejected FetchError
  | FetchNotOk status detail => Rejected (HttpError (error_message status detail))
  | FetchOk None => Rejected BodyError
  | FetchOk (Some data) => Resolved (response data)
  end.

(** The [try]/[catch] of [sendMessage]: how the promise settles.  [DEV]
    is [import.meta.env.DEV]. *)
Definition settle (DEV : bool) (text : jsstring) (language : Language)
    (reply : FetchResult) : Outcome :=
  match receive reply with
  | Resolved r => Resolved r
  | Rejected error =>
      if DEV
      then Resolved (as_string (getFallbackResponse text (code language)))
      else Rejected error
  end.

(** [sendMessage]: the request goes out, and the promise settles on what
    the endpoint answers to it, [reply]. *)
Definition sendMessage (DEV : bool) (text : jsstring) (language : Language)
    (imageBase64 audioFile : option jsstring) (reply : FetchResult)
    (w : World) : Outcome * World :=
  let request := mkRequest text imageBase64 audioFile (sessionId w) language in
  (settle DEV text language reply,
   mkWorld (localStorage w) (quota w) (sessionId w) (network w ++ [request])
     (clock w) (reads w)).

(** ** Session history *)

Definition message_toJSON (m : Message) : MessageOf JsonDate :=
  mkMessage (msg_id m) (role m) (content m) (Date_toJSON (timestamp m))
    (imageUrl m) (audioUrl m).

Definition session_toJSON (s : ChatSession) : ChatSessionOf JsonDate :=
  mkSession (id s) (title s) (map message_toJSON (messages s))
    (Date_toJSON (createdAt s)) (Date_toJSON (updatedAt s)).

(** [JSON.stringify(history)] *)
Definition stringify (history : list ChatSession) : StoredText :=
  HistoryText (map session_toJSON history).

(** [{...m, timestamp: new Date(m.timestamp)}] *)
Definition revive_message (m : MessageOf JsonDate) : Message :=
  mkMessage (msg_id m) (role m) (content m) (Date_of_json (timestamp m))
    (imageUrl m) (audioUrl m).

(** [{...s, createdAt: ..., updatedAt: ..., messages: ...}] *)
Definition revive_session (s : ChatSessionOf JsonDate) : ChatSession :=
  mkSession (id s) (title s) (map revive_message (messages s))
    (Date_of_json (createdAt s)) (Date_of_json (updatedAt s)).

Definition getChatHistory (w : World) : list ChatSession :=
  match localStorage w with
  | Some (HistoryText parsed) => map revive_session parsed
  | Some Unreadable => []     (* the exception is caught *)
  | None => []
  end.

(** [history.findIndex((s) => s.id === sessionId)], [None] for -1. *)
Definition findIndex (sessionId : jsstring) (history : list ChatSession)
  : option nat :=
  fst <$> list_find (λ s, id s = sessionId) history.

(** [history.shift()] *)
Definition shift (history : list ChatSession) : list ChatSession :=
  tail history.

(** The array [history] of [saveChatHistory] when it is written back. *)
Definition upsert (session : ChatSession) (history : list ChatSession)
  : list ChatSession :=
  let history1 :=
    match findIndex (id session) history with
    | Some existingIndex => <[existingIndex := session]> history
    | None => history ++ [session]
    end in
  if 50 <? Z.of_nat (length history1) then shift history1 else history1.

(** [localStorage.setItem] throws when the browser refuses the text (the
    quota is exceeded); the item is then left as it was. *)
Definition setItem_throws (v : StoredText) (w : World) : bool :=
  negb (quota w v).

(** [saveChatHistory] has no handler of its own: it throws when its
    [setItem] does. *)
Definition saveChatHistory_throws (session : ChatSession) (w : World) : bool :=
  setItem_throws (stringify (upsert session (getChatHistory w))) w.

(** The browser after [saveChatHistory] has returned, that is, when its
    [setItem] has not thrown. *)
Definition saveChatHistory (session : ChatSession) (w : World) : World :=
  let history := getChatHistory w in
  set_localStorage (Some (stringify (upsert session history))) w.

(** The browser after [deleteChatSession] has returned.  Its [setItem]
    has no handler, here or in the page: an exception would leave
    [handleDeleteSession] before any state is set. *)
Definition deleteChatSession (sessionId : jsstring) (w : World) : World :=
  let history := filter (λ s, id s ≠ sessionId) (getChatHistory w) in
  set_localStorage (Some (stringify history)) w.

Definition clearAllHistory (w : World) : World :=
  set_localStorage None w.

End ChatService.

(* ================================================================== *)
(** * [ChatPage.tsx] *)
(* ================================================================== *)

Module ChatPage.

(** What the component reads from its surroundings: the language and the
    translation function of [useLanguage()], and the build flag
    [import.meta.env.DEV] that [chatService] consults. *)
Record Env := mkEnv {
  ui_language : Language;
  t : jsstring -> jsstring;
  DEV : bool
}.

(** The [useState] cells of the component. *)
Record State := mkState {
  sessions : list ChatSession;
  currentSession : ChatSession;
  isLoading : bool
}.

Definition generateTitle (firstMessage : jsstring) : jsstring :=
  let maxLength := 30%nat in
  if (length firstMessage <=? maxLength)%nat then firstMessage
  else substring0 maxLength firstMessage ++ utf16 "...".

(** [!text.trim() && !imageBase64 && !audioFile] *)
Definition nothing_to_send (text : jsstring)
    (imageBase64 audioFile : option jsstring) : bool :=
  negb (truthy (trim text)) && negb (truthy_opt imageBase64)
  && negb (truthy_opt audioFile).

(** [handleSend] up to the [await]: the user message is appended to the
    session the callback closed over, and the page shows it while it
    waits.  Returns [updatedSession] with the new state. *)
Definition handleSend_begin (text : jsstring)
    (imageBase64 audioFile : option jsstring) (σ : State * World)
  : ChatSession * (State * World) :=
  let '(st, w) := σ in
  let '(now, w) := Date_now w in
  let '(stamp, w) := Date_new w in
  let userMessage : Message :=
    mkMessage (Number_toString now) user text stamp imageBase64 audioFile in
  let '(updated, w) := Date_new w in
  let updatedSession :=
    with_updatedAt updated
      (with_messages (messages (currentSession st) ++ [userMessage])
         (currentSession st)) in
  let updatedSession :=
    if (length (messages updatedSession) =? 1)%nat && truthy (trim text)
    then with_title (generateTitle text) updatedSession
    else updatedSession in
  (updatedSession, (mkState (sessions st) updatedSession true, w)).

(** The argument of [setSessions] on the success path. *)
Definition index_update (finalSession : ChatSession) (prev : list ChatSession)
  : list ChatSession :=
  match list_find (λ s, id s = id finalSession) prev with
  | Some _ =>
      map (λ s, if decide (id s = id finalSession) then finalSession else s)
        prev
  | None => finalSession :: prev
  end.

(** The [catch] block of [handleSend], then [finally]. *)
Definition handleSend_catch (env : Env) (updatedSession : ChatSession)
    (σ : State * World) : State * World :=
  let '(st, w) := σ in
  let '(now, w) := Date_now w in
  let '(stamp, w) := Date_new w in
  let errorMessage : Message :=
    mkMessage (Number_toString (now + 1)) assistant
      (t env (utf16 "maintenance")) stamp None None in
  let '(updated, w) := Date_new w in
  let finalSession :=
    with_updatedAt updated
      (with_messages (messages updatedSession ++ [errorMessage])
         updatedSession) in
  (mkState (sessions st) finalSession false, w).

(** The [try] block after the [await], up to [finalSession]
    (lines 71-84). *)
Definition handleSend_reply (updatedSession : ChatSession)
    (response : jsstring) (w : World) : ChatSession * World :=
  let '(now, w) := Date_now w in
  let '(stamp, w) := Date_new w in
  let assistantMessage : Message :=
    mkMessage (Number_toString (now + 1)) assistant response stamp
      None None in
  let '(updated, w) := Date_new w in
  (with_updatedAt updated
     (with_messages (messages updatedSession ++ [assistantMessage])
        updatedSession), w).

(** [handleSend] after the [await].  A resolved promise continues the
    [try] block, which ends in [catch] all the same when
    [saveChatHistory] throws (line 87): [setSessions] is not reached, and
    the [setCurrentSession] of line 86 is overridden by the one of the
    [catch] block.  A rejected promise goes to [catch] at once.
    [finally] follows in every case. *)
Definition handleSend_settle (env : Env) (updatedSession : ChatSession)
    (outcome : ChatService.Outcome) (σ : State * World) : State * World :=
  let '(st, w) := σ in
  match outcome with
  | ChatService.Resolved response =>
      let '(finalSession, w) := handleSend_reply updatedSession response w in
      if ChatService.saveChatHistory_throws finalSession w
      then handleSend_catch env updatedSession (st, w)
      else
        let w := ChatService.saveChatHistory finalSession w in
        (mkState (index_update finalSession (sessions st)) finalSession false,
         w)
  | ChatService.Rejected _ => handleSend_catch env updatedSession (st, w)
  end.

(** One call of [handleSend], run to completion; [reply] is what the
    endpoint answers if it is asked. *)
Definition handleSend (env : Env) (text : jsstring)
    (imageBase64 audioFile : option jsstring) (reply : FetchResult)
    (σ : State * World) : State * World :=
  if nothing_to_send text imageBase64 audioFile then σ
  else
    let '(updatedSession, (st, w)) :=
      handleSend_begin text imageBase64 audioFile σ in
    let '(outcome, w) :=
      ChatService.sendMessage (DEV env) text (ui_language env)
        imageBase64 audioFile reply w in
    handleSend_settle env updatedSession outcome (st, w).

(** The first render: the [useState] initialisers. *)
Definition init (env : Env) (w : World) : State * World :=
  let '(created, w) := Date_new w in
  let '(updated, w) := Date_new w in
  (mkState []
     (mkSession (ChatService.getSessionId w) (t env (utf16 "newChat")) []
        created updated)
     false, w).

(** The effect that runs on mount. *)
Definition mount (σ : State * World) : State * World :=
  let '(st, w) := σ in
  (mkState (ChatService.getChatHistory w) (currentSession st) (isLoading st),
   w).

Definition handleNewChat (env : Env) (random36 : jsstring)
    (σ : State * World) : State * World :=
  let '(st, w) := σ in
  let w := ChatService.resetSession random36 w in
  let '(created, w) := Date_new w in
  let '(updated, w) := Date_new w in
  let newSession : ChatSession :=
    mkSession (ChatService.getSessionId w) (t env (utf16 "newChat")) []
      created updated in
  (mkState (sessions st) newSession (isLoading st), w).

Definition handleSelectSession (sessionId : jsstring) (σ : State * World)
  : State * World :=
  let '(st, w) := σ in
  match list_find (λ s, id s = sessionId) (sessions st) with
  | Some (_, session) => (mkState (sessions st) session (isLoading st), w)
  | None => σ
  end.

Definition handleDeleteSession (env : Env) (random36 : jsstring)
    (sessionId : jsstring) (σ : State * World) : State * World :=
  let '(st, w) := σ in
  let w := ChatService.deleteChatSession sessionId w in
  let st' := mkState (filter (λ s, id s ≠ sessionId) (sessions st))
               (currentSession st) (isLoading st) in
  if decide (id (currentSession st) = sessionId)
  then handleNewChat env random36 (st', w)
  else (st', w).


(** [formatDate]; [toLocaleDateString] is the rendering of the locale.
    The difference of two time values is NaN when one of them is, and
    NaN equals neither 0 nor 1. *)
Definition formatDate (env : Env) (toLocaleDateString : Date -> jsstring)
    (date : Date) (w : World) : jsstring * World :=
  let '(now, w) := Date_new w in
  let sessionDate := date in
  let diffDays :=
    match now, sessionDate with
    | Time n, Time d => Some ((n - d) / (1000 * 60 * 60 * 24))
    | _, _ => None
    end in
  (if decide (diffDays = Some 0) then t env (utf16 "today")
   else if decide (diffDays = Some 1) then t env (utf16 "yesterday")
   else toLocaleDateString sessionDate, w).

End ChatPage.

(* ================================================================== *)
(** * [ChatInput.tsx] *)
(* ================================================================== *)

Module ChatInput.

(** The [useState] cells and refs of the component.  A recorder is
    known by the number of the microphone stream it records. *)
Record State := mkState {
  input : jsstring;
  selectedImage : option jsstring;
  isRecording : bool;
  recordingTime : Z;
  audioFile : option jsstring;
  mediaRecorderRef : option nat;
  recordingIntervalRef : option nat
}.

(** The devices and timers behind the component.  Interval ids are
    positive, as [setInterval] gives them, so a stored id is truthy. *)
Record Devices := mkDevices {
  liveStreams : list nat;       (* microphone streams with running tracks *)
  activeRecorders : list nat;   (* recorders in state "recording" *)
  stopEvents : list nat;        (* stopped recorders, [onstop] not yet run *)
  timers : list nat;            (* intervals set and not cleared *)
  nextTimer : nat;
  alerts : nat                  (* alert boxes shown *)
}.

(** [v || undefined] *)
Definition or_undefined (v : option jsstring) : option jsstring :=
  if truthy_opt v then v else None.

(** [handleSend]: returns the arguments of the [onSend] call, if one is
    made. *)
Definition handleSend (isLoading disabled : bool) (st : State)
  : State * option (jsstring * option jsstring * option jsstring) :=
  if (negb (truthy (trim (input st))) && negb (truthy_opt (selectedImage st))
      && negb (truthy_opt (audioFile st)))
     || isLoading || disabled
  then (st, None)
  else
    (mkState [] None (isRecording st) (recordingTime st) None
       (mediaRecorderRef st) (recordingIntervalRef st),
     Some (trim (input st), or_undefined (selectedImage st),
           or_undefined (audioFile st))).

(** [startRecording]; [grant] is the stream that [getUserMedia] resolves
    to, [None] when it rejects. *)
Definition startRecording (grant : option nat) (σ : State * Devices)
  : State * Devices :=
  let '(st, dev) := σ in
  let st := mkState (input st) (selectedImage st) (isRecording st)
              (recordingTime st) None (mediaRecorderRef st)
              (recordingIntervalRef st) in
  match grant with
  | None =>
      (st, mkDevices (liveStreams dev) (activeRecorders dev) (stopEvents dev)
             (timers dev) (nextTimer dev) (S (alerts dev)))
  | Some stream =>
      (mkState (input st) (selectedImage st) true 0 (audioFile st)
         (Some stream) (Some (nextTimer dev)),
       mkDevices (stream :: liveStreams dev) (stream :: activeRecorders dev)
         (stopEvents dev) (nextTimer dev :: timers dev) (S (nextTimer dev))
         (alerts dev))
  end.

(** [MediaRecorder.stop()]: an active recorder becomes inactive and its
    [stop] event is queued; an inactive one is left alone. *)
Definition recorder_stop (r : nat) (dev : Devices) : Devices :=
  if decide (r ∈ activeRecorders dev)
  then mkDevices (liveStreams dev) (filter (λ x, x ≠ r) (activeRecorders dev))
         (stopEvents dev ++ [r]) (timers dev) (nextTimer dev) (alerts dev)
  else dev.

Definition clearInterval (i : nat) (dev : Devices) : Devices :=
  mkDevices (liveStreams dev) (activeRecorders dev) (stopEvents dev)
    (filter (λ x, x ≠ i) (timers dev)) (nextTimer dev) (alerts dev).

Definition stopRecording (σ : State * Devices) : State * Devices :=
  let '(st, dev) := σ in
  match mediaRecorderRef st with
  | Some recorder =>
      if isRecording st then
        let dev := recorder_stop recorder dev in
        match recordingIntervalRef st with
        | Some interval =>
            (mkState (input st) (selectedImage st) false (recordingTime st)
               (audioFile st) (mediaRecorderRef st) None,
             clearInterval interval dev)
        | None =>
            (mkState (input st) (selectedImage st) false (recordingTime st)
               (audioFile st) (mediaRecorderRef st) (recordingIntervalRef st),
             dev)
        end
      else σ
  | None => σ
  end.

(** The [onstop] callback of recorder [r], followed by the [onloadend]
    callback of its reader: the tracks of the stream are stopped and the
    encoded clip [base64Audio] becomes the held artifact. *)
Definition onstop (r : nat) (base64Audio : jsstring) (σ : State * Devices)
  : State * Devices :=
  let '(st, dev) := σ in
  (mkState (input st) (selectedImage st) (isRecording st) (recordingTime st)
     (Some base64Audio) (mediaRecorderRef st) (recordingIntervalRef st),
   mkDevices (filter (λ x, x ≠ r) (liveStreams dev)) (activeRecorders dev)
     (filter (λ x, x ≠ r) (stopEvents dev)) (timers dev) (nextTimer dev)
     (alerts dev)).

(** [clearAudio] *)
Definition clearAudio (st : State) : State :=
  mkState (input st) (selectedImage st) (isRecording st) (recordingTime st)
    None (mediaRecorderRef st) (recordingIntervalRef st).

(** [handleKeyDown]; [key] is [e.key]. *)
Definition handleKeyDown (key : jsstring) (shiftKey : bool)
    (isLoading disabled : bool) (st : State)
  : State * option (jsstring * option jsstring * option jsstring) :=
  if bool_decide (key = utf16 "Enter") && negb shiftKey
  then handleSend isLoading disabled st
  else (st, None).

(** The [onloadend] callback of the reader that [handleImageSelect]
    starts on the chosen file; [result] is its data URL. *)
Definition imageLoaded (result : jsstring) (st : State) : State :=
  mkState (input st) (Some result) (isRecording st) (recordingTime st)
    (audioFile st) (mediaRecorderRef st) (recordingIntervalRef st).

Definition clearImage (st : State) : State :=
  mkState (input st) None (isRecording st) (recordingTime st)
    (audioFile st) (mediaRecorderRef st) (recordingIntervalRef st).

(** The callback of the interval set by [startRecording]. *)
Definition tick (st : State) : State :=
  mkState (input st) (selectedImage st) (isRecording st)
    (recordingTime st + 1) (audioFile st) (mediaRecorderRef st)
    (recordingIntervalRef st).

(** [formatTime], for a non-negative whole number of seconds. *)
Definition formatTime (seconds : Z) : jsstring :=
  let mins := seconds / 60 in
  let secs := seconds mod 60 in
  Number_toString mins ++ utf16 ":" ++ padStart 2 48%N (Number_toString secs).

End ChatInput.

(* ================================================================== *)
(** * Sample runs *)
(* ================================================================== *)

(** Concrete surroundings on which the statements below are exercised. *)
Module Sample.

(** English strings of the translation table, for the keys the page
    uses. *)
Definition t (key : jsstring) : jsstring :=
  if decide (key = utf16 "newChat") then utf16 "New Chat"
  else if decide (key = utf16 "maintenance")
  then utf16 "The assistant is currently unavailable."
  else if decide (key = utf16 "today") then utf16 "Today"
  else if decide (key = utf16 "yesterday") then utf16 "Yesterday"
  else key.

Definition production : ChatPage.Env := ChatPage.mkEnv en t false.

(** A browser with nothing stored, whose clock advances by one
    millisecond per reading from 2023-11-14T22:13:20Z. *)
Definition browser : World :=
  mkWorld None (λ _, true)
    (ChatService.generateSessionId (utf16 "0.4fzyo82mvyr"))
    [] (λ n, 1700000000000 + Z.of_nat n) 0.

(** The same browser with a store that takes no more text. *)
Definition refusing : World :=
  mkWorld None (λ _, false) (sessionId browser) [] (clock browser) 0.

Definition hello : jsstring := utf16 "Hello".

Definition answer : FetchResult :=
  FetchOk (Some (mkResponse (utf16 "Hi, how can I help?")
                   (utf16 "session_4fzyo82mvyr")
                   (utf16 "2023-11-14T22:13:21.000Z"))).

(** The page after its first render and mount. *)
Definition fresh (env : ChatPage.Env) : ChatPage.State * World :=
  ChatPage.mount (ChatPage.init env browser).

(** A session by its id, with one message. *)
Definition session (name : String.string) (t : Z) : ChatSession :=
  mkSession (utf16 name) (utf16 name)
    [mkMessage (Number_toString t) user (utf16 name) (Time t) None None]
    (Time t) (Time t).

(** [n] sessions, named 0 to [n - 1]. *)
Definition numbered (n : nat) : list ChatSession :=
  map (λ k, mkSession (Number_toString (Z.of_nat k)) (utf16 "New Chat") []
              (Time (Z.of_nat k)) (Time (Z.of_nat k)))
    (seq 0 n).

(** The browser after fifty sessions have been saved: a full history. *)
Definition full : World :=
  foldl (λ w s, ChatService.saveChatHistory s w) browser (numbered 50).

(** A session under the id of the [k]-th numbered one, with a title. *)
Definition renamed (k : nat) : ChatSession :=
  mkSession (Number_toString (Z.of_nat k)) (utf16 "Monsoon crops") []
    (Time (Z.of_nat k)) (Time 1700000000000).

(** The page with two sessions in its index, the second one selected. *)
Definition indexed : ChatPage.State * World :=
  (ChatPage.mkState [session "a" 1; session "b" 2] (session "b" 2) false,
   browser).

(** The composer, idle, holding a recorded clip. *)
Definition composer : ChatInput.State * ChatInput.Devices :=
  ChatInput.onstop 7 (utf16 "data:audio/webm;base64,GkXf")
    (ChatInput.stopRecording
       (ChatInput.startRecording (Some 7%nat)
          (ChatInput.mkState [] None false 0 None None None,
           ChatInput.mkDevices [] [] [] [] 1 0))).

End Sample.

(* ================================================================== *)
(** * Facts about the platform *)
(* ================================================================== *)

Section JsFacts.

Local Ltac zdm := Z.div_mod_to_equations; lia.

(** ** The calendar *)

Lemma all_from_spec f n : forall z, all_from f z n = true ->
  forall x, z <= x < z + Z.of_nat n -> f x = true.
Proof.
  induction n as [|n IH]; intros z H x Hx; [lia|].
  simpl in H. apply andb_prop in H as [H1 H2].
  destruct (Z.eq_dec x z) as [->|Hne]; [done|].
  apply (IH (z + 1)); [done | lia].
Qed.

Lemma era_checked : all_from day_ok (-719468) (Z.to_nat 146097) = true.
Proof. vm_compute. reflexivity. Qed.

Lemma civil_from_days_shift z k :
  civil_from_days (z + 146097 * k)
  = let '(y, m, d) := civil_from_days z in (y + 400 * k, m, d).
Proof.
  unfold civil_from_days.
  replace (z + 146097 * k + 719468) with (z + 719468 + k * 146097) by lia.
  rewrite Z.div_add, Z.mod_add by lia.
  set (doe := (z + 719468) mod 146097).
  set (yoe := (doe - doe / 1460 + doe / 36524 - doe / 146096) / 365).
  set (doy := doe - (365 * yoe + yoe / 4 - yoe / 100)).
  set (mp := (5 * doy + 2) / 153).
  destruct (_ <=? 2); f_equal; f_equal; lia.
Qed.

Lemma days_from_civil_shift y m d k :
  days_from_civil (y + 400 * k) m d = days_from_civil y m d + 146097 * k.
Proof.
  unfold days_from_civil.
  assert (E : (if m <=? 2 then y + 400 * k - 1 else y + 400 * k)
              = (if m <=? 2 then y - 1 else y) + k * 400)
    by (destruct (m <=? 2); lia).
  rewrite E, Z.div_add, Z.mod_add by lia. lia.
Qed.

Lemma is_leap_shift y k : is_leap (y + 400 * k) = is_leap y.
Proof.
  unfold is_leap.
  replace ((y + 400 * k) mod 4) with (y mod 4)
    by (replace (y + 400 * k) with (y + (100 * k) * 4) by lia;
        by rewrite Z.mod_add).
  replace ((y + 400 * k) mod 100) with (y mod 100)
    by (replace (y + 400 * k) with (y + (4 * k) * 100) by lia;
        by rewrite Z.mod_add).
  replace ((y + 400 * k) mod 400) with (y mod 400)
    by (replace (y + 400 * k) with (y + k * 400) by lia;
        by rewrite Z.mod_add).
  done.
Qed.

Lemma days_in_month_shift y m k :
  days_in_month (y + 400 * k) m = days_in_month y m.
Proof. unfold days_in_month. by rewrite is_leap_shift. Qed.

(** Every day number is the day number of its own date. *)
Lemma civil_roundtrip z :
  let '(y, m, d) := civil_from_days z in
  days_from_civil y m d = z /\ 1 <= m <= 12 /\ 1 <= d <= days_in_month y m
  /\ 400 * ((z + 719468) / 146097) <= y
     <= 400 * ((z + 719468) / 146097) + 400.
Proof.
  set (k := (z + 719468) / 146097).
  set (z0 := z - 146097 * k).
  assert (Hz0 : -719468 <= z0 < -719468 + Z.of_nat (Z.to_nat 146097)).
  { subst z0 k. rewrite Z2Nat.id by lia.
    pose proof (Z.mod_pos_bound (z + 719468) 146097 ltac:(lia)).
    pose proof (Z.div_mod (z + 719468) 146097 ltac:(lia)). lia. }
  pose proof (all_from_spec _ _ _ era_checked z0 Hz0) as Hok.
  replace z with (z0 + 146097 * k) by (subst z0; lia).
  rewrite civil_from_days_shift.
  unfold day_ok in Hok. destruct (civil_from_days z0) as [[y m] d].
  rewrite days_from_civil_shift, days_in_month_shift.
  repeat (apply andb_prop in Hok as [Hok ?]).
  lia.
Qed.

(** ** Reading back what [toISOString] prints *)

Lemma digit_cases d : 0 <= d <= 9 ->
  d = 0 \/ d = 1 \/ d = 2 \/ d = 3 \/ d = 4 \/ d = 5 \/ d = 6 \/ d = 7
  \/ d = 8 \/ d = 9.
Proof. lia. Qed.

Lemma digit_val_digit d : 0 <= d <= 9 -> digit_val (digit d) = Some d.
Proof.
  intros H. pose proof (digit_cases d H) as Hd.
  repeat (destruct Hd as [-> | Hd]; [reflexivity|]). by subst.
Qed.

Lemma digit_not_sign d : 0 <= d <= 9 ->
  ((digit d =? 43) || (digit d =? 45))%N = false.
Proof.
  intros H. pose proof (digit_cases d H) as Hd.
  repeat (destruct Hd as [-> | Hd]; [reflexivity|]). by subst.
Qed.

Lemma number_of_pad2 n : 0 <= n < 100 -> number_of (pad2 n) 0 = Some n.
Proof.
  intros H. unfold pad2, number_of.
  rewrite !digit_val_digit by zdm. f_equal. zdm.
Qed.

Lemma number_of_pad3 n : 0 <= n < 1000 -> number_of (pad3 n) 0 = Some n.
Proof.
  intros H. unfold pad3, number_of.
  rewrite !digit_val_digit by zdm. f_equal. zdm.
Qed.

Lemma number_of_pad4 n : 0 <= n < 10000 -> number_of (pad4 n) 0 = Some n.
Proof.
  intros H. unfold pad4, number_of.
  rewrite !digit_val_digit by zdm. f_equal. zdm.
Qed.

Lemma number_of_pad6 n : 0 <= n < 1000000 -> number_of (pad6 n) 0 = Some n.
Proof.
  intros H. unfold pad6, number_of.
  rewrite !digit_val_digit by zdm. f_equal. zdm.
Qed.

Lemma days_in_month_le y m : days_in_month y m <= 31.
Proof. unfold days_in_month. repeat case_match; lia. Qed.

Lemma parse_rest_fields y mo d h mi s ms :
  1 <= mo <= 12 -> 1 <= d <= days_in_month y mo -> 0 <= h <= 23 ->
  0 <= mi <= 59 -> 0 <= s <= 59 -> 0 <= ms <= 999 ->
  parse_rest y (45%N :: pad2 mo ++ 45%N :: pad2 d ++ 84%N :: pad2 h
      ++ 58%N :: pad2 mi ++ 58%N :: pad2 s ++ 46%N :: pad3 ms ++ [90%N])
  = Some (days_from_civil y mo d * msPerDay + h * 3600000 + mi * 60000
          + s * 1000 + ms).
Proof.
  intros Hmo Hd Hh Hmi Hs Hms.
  pose proof (days_in_month_le y mo).
  pose proof (number_of_pad2 mo ltac:(lia)) as E1.
  pose proof (number_of_pad2 d ltac:(lia)) as E2.
  pose proof (number_of_pad2 h ltac:(lia)) as E3.
  pose proof (number_of_pad2 mi ltac:(lia)) as E4.
  pose proof (number_of_pad2 s ltac:(lia)) as E5.
  pose proof (number_of_pad3 ms ltac:(lia)) as E6.
  unfold pad2, pad3 in *. cbn [app]. unfold parse_rest.
  rewrite E1, E2, E3, E4, E5, E6.
  replace ((45 =? 45)%N && (45 =? 45)%N && (84 =? 84)%N && (58 =? 58)%N
           && (58 =? 58)%N && (46 =? 46)%N && (90 =? 90)%N) with true
    by reflexivity.
  replace ((1 <=? mo) && (mo <=? 12) && (1 <=? d)
           && (d <=? days_in_month y mo) && (h <=? 23) && (mi <=? 59)
           && (s <=? 59)) with true; [done|].
  symmetry. repeat (apply andb_true_intro; split); lia.
Qed.

Lemma parse_iso_fields y mo d h mi s ms :
  -999999 <= y <= 999999 ->
  1 <= mo <= 12 -> 1 <= d <= days_in_month y mo -> 0 <= h <= 23 ->
  0 <= mi <= 59 -> 0 <= s <= 59 -> 0 <= ms <= 999 ->
  parse_iso (iso_fields y mo d h mi s ms)
  = Some (days_from_civil y mo d * msPerDay + h * 3600000 + mi * 60000
          + s * 1000 + ms).
Proof.
  intros Hy Hmo Hd Hh Hmi Hs Hms.
  pose proof (parse_rest_fields y mo d h mi s ms Hmo Hd Hh Hmi Hs Hms) as R.
  unfold iso_fields, iso_year.
  destruct ((0 <=? y) && (y <=? 9999)) eqn:E.
  - apply andb_prop in E as [E1 E2].
    pose proof (number_of_pad4 y ltac:(lia)) as Ey.
    assert (Hd1 : 0 <= y / 1000 <= 9) by zdm.
    pose proof (digit_not_sign _ Hd1) as Hs1.
    unfold pad4 in *. cbn [app]. unfold parse_iso.
    rewrite Hs1, Ey. exact R.
  - assert (Hy' : y < 0 \/ 9999 < y).
    { apply andb_false_iff in E as [E|E]; lia. }
    pose proof (number_of_pad6 (Z.abs y) ltac:(lia)) as Ey.
    unfold pad6 in *. cbn [app]. unfold parse_iso.
    destruct (y <? 0) eqn:Hneg.
    + replace ((45 =? 43)%N || (45 =? 45)%N) with true by reflexivity.
      rewrite Ey. replace (45 =? 45)%N with true by reflexivity.
      destruct (Z.abs y =? 0) eqn:E0; [lia|].
      replace (- Z.abs y) with y by lia. exact R.
    + replace ((43 =? 43)%N || (43 =? 45)%N) with true by reflexivity.
      rewrite Ey. replace (43 =? 45)%N with false by reflexivity.
      replace (Z.abs y) with y by lia. exact R.
Qed.

Lemma time_of_day_fields tod :
  0 <= tod < 86400000 ->
  0 <= tod / 3600000 <= 23 /\ 0 <= tod / 60000 mod 60 <= 59
  /\ 0 <= tod / 1000 mod 60 <= 59 /\ 0 <= tod mod 1000 <= 999
  /\ tod / 3600000 * 3600000 + tod / 60000 mod 60 * 60000
     + tod / 1000 mod 60 * 1000 + tod mod 1000 = tod.
Proof. intros H. zdm. Qed.

(** [Date.parse(new Date(t).toISOString()) === t] for every time value. *)
Lemma parse_toISOString t :
  in_range t = true -> parse_iso (toISOString t) = Some t.
Proof.
  intros Ht. unfold in_range, maxTime in Ht.
  apply andb_prop in Ht as [Hlo Hhi].
  unfold toISOString, msPerDay.
  pose proof (civil_roundtrip (t / 86400000)) as C.
  pose proof (Z.mod_pos_bound t 86400000 ltac:(lia)) as Htod.
  pose proof (Z.div_mod t 86400000 ltac:(lia)) as Hdm.
  pose proof (time_of_day_fields _ Htod) as (Hh & Hmi & Hs & Hms & Hsum).
  set (day := t / 86400000) in *. set (tod := t mod 86400000) in *.
  assert (Hday : -100000000 <= day <= 100000000) by lia.
  assert (Hera : -700 <= (day + 719468) / 146097 <= 700).
  { clearbody day. clear -Hday. zdm. }
  destruct (civil_from_days day) as [[y mo] d].
  destruct C as (Cd & Cm & Cday & Cy).
  rewrite parse_iso_fields; [|lia|done..].
  unfold msPerDay. rewrite Cd. f_equal. lia.
Qed.

Lemma Date_of_json_toJSON d :
  valid_date d = true -> Date_of_json (Date_toJSON d) = d.
Proof.
  destruct d as [t|]; [|done]. simpl. intros Ht.
  unfold Date_toJSON. rewrite Ht. simpl.
  unfold Date_of_string. rewrite parse_toISOString by done.
  unfold TimeClip. by rewrite Ht.
Qed.

(** ** Trimming *)

Lemma trimStart_spaces s : forallb is_space s = true -> trimStart s = [].
Proof.
  induction s as [|c s IH]; [done|]. simpl.
  intros [Hc Hs]%andb_prop. rewrite Hc. auto.
Qed.

Lemma trim_spaces s : forallb is_space s = true -> trim s = [].
Proof. intros H. unfold trim. by rewrite trimStart_spaces. Qed.

Lemma trimStart_idem s : trimStart (trimStart s) = trimStart s.
Proof.
  induction s as [|c s IH]; [done|]. simpl.
  destruct (is_space c) eqn:E; [done|]. simpl. by rewrite E.
Qed.

Lemma trimStart_snoc w c :
  is_space c = false -> trimStart (w ++ [c]) = trimStart w ++ [c].
Proof.
  intros Hc. induction w as [|a w IH]; simpl; [by rewrite Hc|].
  by destruct (is_space a).
Qed.

Lemma trimEnd_cons c v :
  is_space c = false -> trimEnd (c :: v) = c :: trimEnd v.
Proof.
  intros Hc. unfold trimEnd. simpl.
  by rewrite trimStart_snoc, rev_app_distr.
Qed.

Lemma trimEnd_idem s : trimEnd (trimEnd s) = trimEnd s.
Proof. unfold trimEnd. by rewrite rev_involutive, trimStart_idem. Qed.

Lemma trimStart_head s :
  trimStart s = [] \/ exists c v, trimStart s = c :: v /\ is_space c = false.
Proof.
  induction s as [|c s IH]; [by left|]. simpl.
  destruct (is_space c) eqn:E; [done|]. right. eauto.
Qed.

(** Trimming twice is trimming once. *)
Lemma trim_idem s : trim (trim s) = trim s.
Proof.
  unfold trim. destruct (trimStart_head s) as [->|(c & v & -> & Hc)].
  - done.
  - rewrite trimEnd_cons by done. simpl. rewrite Hc.
    by rewrite !trimEnd_cons, trimEnd_idem.
Qed.

Lemma truthy_false s : truthy s = false <-> s = [].
Proof. by destruct s. Qed.

(** ** Substrings *)

Lemma starts_with_app sub s : starts_with sub (sub ++ s) = true.
Proof.
  induction sub as [|a sub IH]; simpl; [by destruct s|].
  by rewrite N.eqb_refl.
Qed.

Lemma includes_prefix sub s : starts_with sub s = true -> includes sub s = true.
Proof. intros H. destruct s; simpl; by rewrite H. Qed.

Lemma includes_app pre sub suf : includes sub (pre ++ sub ++ suf) = true.
Proof.
  induction pre as [|a pre IH].
  - rewrite app_nil_l. apply includes_prefix, starts_with_app.
  - change (starts_with sub (a :: pre ++ sub ++ suf)
            || includes sub (pre ++ sub ++ suf) = true).
    rewrite IH. apply orb_true_r.
Qed.

End JsFacts.

(* ================================================================== *)
(** * The session history, dispatch, the page and the recorder *)
(* ================================================================== *)

Section ChatServiceFacts.
Import ChatService.

Lemma revive_message_toJSON m :
  valid_message m = true -> revive_message (message_toJSON m) = m.
Proof.
  destruct m as [i r c ts im au]. unfold valid_message. simpl. intros H.
  unfold revive_message, message_toJSON. simpl.
  by rewrite Date_of_json_toJSON.
Qed.

Lemma revive_messages_toJSON ms :
  forallb valid_message ms = true ->
  map revive_message (map message_toJSON ms) = ms.
Proof.
  induction ms as [|m ms IH]; [done|]. simpl.
  intros [Hm Hms]%andb_prop. by rewrite revive_message_toJSON, IH.
Qed.

Lemma revive_session_toJSON s :
  valid_session s = true -> revive_session (session_toJSON s) = s.
Proof.
  destruct s as [i ti ms c u]. unfold valid_session. simpl.
  intros [[Hc Hu]%andb_prop Hms]%andb_prop.
  unfold revive_session, session_toJSON. simpl.
  by rewrite revive_messages_toJSON, !Date_of_json_toJSON.
Qed.

Lemma id_revive_toJSON s : id (revive_session (session_toJSON s)) = id s.
Proof. done. Qed.

Lemma getChatHistory_written h w :
  getChatHistory (set_localStorage (Some (stringify h)) w)
  = map (λ s, revive_session (session_toJSON s)) h.
Proof. unfold getChatHistory, stringify. simpl. by rewrite map_map. Qed.

Lemma getChatHistory_save s w :
  getChatHistory (saveChatHistory s w)
  = map (λ s, revive_session (session_toJSON s))
      (upsert s (getChatHistory w)).
Proof. unfold saveChatHistory. apply getChatHistory_written. Qed.

Lemma findIndex_Some sid h i :
  findIndex sid h = Some i ->
  exists s, h !! i = Some s /\ id s = sid
            /\ forall j y, h !! j = Some y -> (j < i)%nat -> id y ≠ sid.
Proof.
  unfold findIndex. intros H.
  apply fmap_Some in H as ([i' s] & E & ->).
  apply list_find_Some in E as (? & ? & ?). eauto.
Qed.

Lemma findIndex_None sid h :
  findIndex sid h = None <-> Forall (λ s, id s ≠ sid) h.
Proof.
  unfold findIndex. rewrite fmap_None. apply list_find_None.
Qed.

Local Ltac case_ltb :=
  match goal with |- context [?a <? ?b] => destruct (Z.ltb_spec a b) end.

Lemma upsert_length s h :
  (length h <= 50)%nat -> (length (upsert s h) <= 50)%nat.
Proof.
  intros H. unfold upsert, shift.
  destruct (findIndex (id s) h) as [i|].
  - case_ltb; rewrite length_insert in *; [lia|done].
  - case_ltb; rewrite length_app in *; simpl in *; [|lia].
    destruct h; simpl in *; [lia|]. rewrite length_app. simpl. lia.
Qed.

Lemma upsert_existing s h i :
  (length h <= 50)%nat -> findIndex (id s) h = Some i ->
  upsert s h = <[i := s]> h.
Proof.
  intros H E. unfold upsert. rewrite E, length_insert.
  case_ltb; [lia|done].
Qed.

Lemma upsert_new s h :
  (length h < 50)%nat -> findIndex (id s) h = None -> upsert s h = h ++ [s].
Proof.
  intros H E. unfold upsert. rewrite E, length_app. simpl.
  case_ltb; [lia|done].
Qed.

Lemma upsert_full s h :
  length h = 50%nat -> findIndex (id s) h = None ->
  upsert s h = tail h ++ [s].
Proof.
  intros H E. unfold upsert, shift. rewrite E, length_app. simpl.
  case_ltb; [|lia]. by destruct h.
Qed.

Lemma upsert_elem s h : (length h <= 50)%nat -> s ∈ upsert s h.
Proof.
  intros H. destruct (findIndex (id s) h) as [i|] eqn:E.
  - rewrite (upsert_existing _ _ _ H E).
    apply findIndex_Some in E as (x & Hx & _).
    apply list_elem_of_lookup. exists i.
    apply list_lookup_insert_eq. by apply lookup_lt_Some in Hx.
  - destruct (decide (length h = 50%nat)) as [E50|].
    + rewrite upsert_full by done.
      apply elem_of_app. right. by apply list_elem_of_singleton.
    + rewrite upsert_new by (done || lia).
      apply elem_of_app. right. by apply list_elem_of_singleton.
Qed.

Lemma getChatHistory_length_written h w :
  length (getChatHistory (set_localStorage (Some (stringify h)) w))
  = length h.
Proof. by rewrite getChatHistory_written, length_map. Qed.

Lemma findIndex_first sid h i x :
  h !! i = Some x -> id x = sid ->
  (forall j y, h !! j = Some y -> (j < i)%nat -> id y ≠ sid) ->
  findIndex sid h = Some i.
Proof.
  intros Hx Hid Hmin. unfold findIndex.
  by rewrite (proj2 (list_find_Some (λ s, id s = sid) h i x)).
Qed.

(** Claim C2.  [saveChatHistory] upserts by session id.  On a history of
    at most 50 sessions: a session whose id is already stored replaces the
    entry at the first position that holds the id, and every other
    position keeps its entry; a session whose id no stored entry has is
    appended, and when that makes 51 sessions exactly the one at position
    0 is dropped, whatever its [updatedAt]; the stored history never
    holds more than 50 sessions. *)
Theorem save_upserts_and_evicts (s : ChatSession) (w : World) :
  (length (getChatHistory w) <= 50)%nat ->
  let h := getChatHistory w in
  let w' := saveChatHistory s w in
  (forall i x, h !! i = Some x -> id x = id s ->
     (forall j y, h !! j = Some y -> (j < i)%nat -> id y ≠ id s) ->
     localStorage w' = Some (stringify (<[i := s]> h)))
  /\ (Forall (λ x, id x ≠ id s) h -> (length h < 50)%nat ->
      localStorage w' = Some (stringify (h ++ [s])))
  /\ (Forall (λ x, id x ≠ id s) h -> length h = 50%nat ->
      localStorage w' = Some (stringify (tail h ++ [s])))
  /\ (length (getChatHistory w') <= 50)%nat.
Proof.
  intros Hlen h w'. subst h w'. unfold saveChatHistory.
  split; [|split; [|split]].
  - intros i x Hx Hid Hmin. simpl.
    rewrite (upsert_existing _ _ i); [done | done |].
    by apply (findIndex_first _ _ i x).
  - intros Hnew%findIndex_None Hroom. simpl. by rewrite upsert_new.
  - intros Hnew%findIndex_None Hfull. simpl. by rewrite upsert_full.
  - rewrite getChatHistory_length_written. by apply upsert_length.
Qed.

(** Claim C4.  Round trip: after [saveChatHistory s], [getChatHistory]
    returns a collection that contains [s] itself, for every session [s]
    with valid dates (and a stored history within its bound of 50): the
    [createdAt], [updatedAt] and message [timestamp] fields come back as
    [Date] values with the same millisecond time value. *)
Theorem save_load_round_trip (s : ChatSession) (w : World) :
  valid_session s = true ->
  (length (getChatHistory w) <= 50)%nat ->
  s ∈ getChatHistory (saveChatHistory s w).
Proof.
  intros Hs Hlen. rewrite getChatHistory_save.
  apply list_elem_of_In, in_map_iff. exists s. split.
  - by apply revive_session_toJSON.
  - by apply list_elem_of_In, upsert_elem.
Qed.

Lemma save_upserts_and_evicts_witness :
  let h := getChatHistory Sample.full in
  let s := Sample.renamed 7 in
  let n := Sample.session "fifty-first" 51 in
  length h = 50%nat
  /\ localStorage (saveChatHistory s Sample.full)
     = Some (stringify (<[7%nat := s]> h))
  /\ localStorage (saveChatHistory n Sample.full)
     = Some (stringify (tail h ++ [n]))
  /\ localStorage (saveChatHistory n Sample.browser) = Some (stringify [n]).
Proof.
  intros h s n.
  assert (Hlen : length h = 50%nat) by (vm_compute; reflexivity).
  split; [exact Hlen|]. split; [|split].
  - destruct (save_upserts_and_evicts s Sample.full) as (Hold & _).
    + fold h. rewrite Hlen. lia.
    + eapply (Hold 7%nat).
      * vm_compute. reflexivity.
      * reflexivity.
      * intros j y Hy Hj.
        do 7 (destruct j as [|j];
              [vm_compute in Hy; injection Hy as <-; vm_compute;
               discriminate|]).
        lia.
  - destruct (save_upserts_and_evicts n Sample.full) as (_ & _ & Hfull & _).
    + fold h. rewrite Hlen. lia.
    + apply Hfull; [|exact Hlen].
      apply (bool_decide_unpack _). vm_compute. exact I.
  - destruct (save_upserts_and_evicts n Sample.browser) as (_ & Hnew & _).
    + vm_compute. lia.
    + apply Hnew; [apply Forall_nil_2 | vm_compute; lia].
Defined.

Lemma save_load_round_trip_witness :
  Sample.session "a" 1
  ∈ getChatHistory (saveChatHistory (Sample.session "a" 1) Sample.browser).
Proof.
  apply save_load_round_trip; [reflexivity | vm_compute; lia].
Defined.
End ChatServiceFacts.

Section Dispatch.
Import ChatService.

Lemma own_property_None o key :
  own_property o key = None <-> key ∉ map fst o.
Proof.
  induction o as [|[k v] o IH]; simpl.
  - split; [intros _; apply not_elem_of_nil | done].
  - rewrite not_elem_of_cons. case_decide; subst.
    + split; [done | intros [? _]; done].
    + rewrite IH. split; [auto | intros [_ ?]; done].
Qed.

Lemma responses_keys text : map fst (responses text) = map code supported.
Proof. reflexivity. Qed.

Local Ltac lookup_own :=
  unfold responses, own_property, code;
  repeat match goal with
    | |- context [decide (?a = ?b)] =>
        let Hk := fresh "Hk" in
        destruct (decide (a = b)) as [Hk|Hk];
        [ first [ vm_compute in Hk; discriminate Hk | reflexivity ]
        | try (exfalso; apply Hk; reflexivity) ]
    end.

Lemma responses_supported text l :
  exists pre suf,
    own_property (responses text) (code l)
    = Some (pre ++ dquote ++ text ++ dquote ++ suf)
    /\ truthy (pre ++ dquote ++ text ++ dquote ++ suf) = true.
Proof.
  destruct l; eexists _, _; (split; [lookup_own | reflexivity]).
Qed.

Lemma getFallbackResponse_supported text l :
  exists pre suf,
    getFallbackResponse text (code l)
    = OwnString (pre ++ dquote ++ text ++ dquote ++ suf)
    /\ own_property (responses text) (code l)
       = Some (pre ++ dquote ++ text ++ dquote ++ suf).
Proof.
  destruct (responses_supported text l) as (pre & suf & E & Ht).
  exists pre, suf. split; [|done].
  unfold getFallbackResponse, get. rewrite E. cbn [value_truthy].
  by rewrite Ht.
Qed.

Lemma getFallbackResponse_default text key :
  key ∉ map code supported -> key ∉ object_prototype ->
  getFallbackResponse text key = getFallbackResponse text (code en).
Proof.
  intros Hk Hp. rewrite <- (responses_keys text) in Hk.
  apply own_property_None in Hk.
  destruct (getFallbackResponse_supported text en) as (pre & suf & -> & E).
  unfold getFallbackResponse, get at 1 2. rewrite Hk.
  rewrite decide_False by done. simpl.
  unfold get. change (utf16 "en") with (code en). by rewrite E.
Qed.

(** Claim C10, amended.  For every language of the enumeration the
    fallback response is a string that contains the input text; for a
    key that is neither in the table nor a member of [Object.prototype]
    the English response is returned. *)
Theorem fallback_for_every_language (text : jsstring) :
  (forall l : Language,
     exists r, getFallbackResponse text (code l) = OwnString r
               /\ includes text r = true)
  /\ (forall key : jsstring,
        key ∉ map code supported -> key ∉ object_prototype ->
        getFallbackResponse text key = getFallbackResponse text (code en)).
Proof.
  split.
  - intros l.
    destruct (getFallbackResponse_supported text l) as (pre & suf & E & _).
    eexists. split; [exact E|].
    rewrite (app_assoc pre). apply includes_app.
  - apply getFallbackResponse_default.
Qed.

Lemma fallback_for_every_language_witness :
  getFallbackResponse Sample.hello (utf16 "fr")
  = getFallbackResponse Sample.hello (code en).
Proof.
  apply (proj2 (fallback_for_every_language Sample.hello)).
  - vm_compute. intros H. repeat (apply elem_of_cons in H as [H|H];
      [discriminate H|]). by apply elem_of_nil in H.
  - vm_compute. intros H. repeat (apply elem_of_cons in H as [H|H];
      [discriminate H|]). by apply elem_of_nil in H.
Defined.

(** Claim C10 as stated fails on a key that [Object.prototype] defines:
    ["constructor"] is not in the table, and the value returned for it is
    the inherited member, not the English response. *)
Lemma fallback_inherited_key :
  (utf16 "constructor" ∉ map code supported)
  /\ getFallbackResponse Sample.hello (utf16 "constructor")
     = Inherited (utf16 "constructor")
  /\ (getFallbackResponse Sample.hello (utf16 "constructor")
      ≠ getFallbackResponse Sample.hello (utf16 "en")).
Proof.
  split; [|split].
  - vm_compute. intros H. repeat (apply elem_of_cons in H as [H|H];
      [discriminate H|]). by apply elem_of_nil in H.
  - vm_compute. reflexivity.
  - vm_compute. discriminate.
Qed.


End Dispatch.

Section Page.
Import ChatPage.

Implicit Types (env : Env) (st : State) (w : World) (σ : State * World)
  (text : jsstring) (image audio : option jsstring) (reply : FetchResult).

(** ** The guard *)

Lemma nothing_to_send_blank text image audio :
  forallb is_space text = true -> truthy_opt image = false ->
  truthy_opt audio = false ->
  nothing_to_send text image audio = true.
Proof.
  intros Ht Hi Ha. unfold nothing_to_send.
  by rewrite trim_spaces, Hi, Ha.
Qed.

(** Claim C7.  [handleSend] with empty text, no image and no audio
    returns at once: the page state and the browser (stored history,
    requests issued, clock) are unchanged. *)
Theorem empty_send_is_noop env image audio reply σ :
  truthy_opt image = false -> truthy_opt audio = false ->
  handleSend env [] image audio reply σ = σ.
Proof.
  intros Hi Ha. unfold handleSend.
  by rewrite nothing_to_send_blank.
Qed.

Lemma empty_send_is_noop_witness :
  let σ := Sample.fresh Sample.production in
  handleSend Sample.production [] None None Sample.answer σ = σ.
Proof.
  exact (empty_send_is_noop Sample.production None None Sample.answer
           (Sample.fresh Sample.production) eq_refl eq_refl).
Defined.

(** Claim C9.  The guard trims: [handleSend] with text made of white
    space only and no attachment changes nothing, on the page and in the
    composer, which makes no [onSend] call. *)
Theorem blank_send_is_noop env text image audio reply σ
    (isLoading disabled : bool) (c : ChatInput.State) :
  forallb is_space text = true ->
  truthy_opt image = false -> truthy_opt audio = false ->
  handleSend env text image audio reply σ = σ
  /\ (ChatInput.input c = text ->
      ChatInput.selectedImage c = image ->
      ChatInput.audioFile c = audio ->
      ChatInput.handleSend isLoading disabled c = (c, None)).
Proof.
  intros Ht Hi Ha. split.
  - unfold handleSend. by rewrite nothing_to_send_blank.
  - intros E1 E2 E3. unfold ChatInput.handleSend.
    by rewrite E1, E2, E3, trim_spaces, Hi, Ha.
Qed.

Lemma blank_send_is_noop_witness :
  let σ := Sample.fresh Sample.production in
  let c := ChatInput.mkState (utf16 "  ") None false 0 None None None in
  handleSend Sample.production (utf16 "  ") None None Sample.answer σ = σ
  /\ ChatInput.handleSend false false c = (c, None).
Proof.
  intros σ c.
  destruct (blank_send_is_noop Sample.production (utf16 "  ") None None
              Sample.answer σ false false c eq_refl eq_refl eq_refl)
    as [H1 H2].
  split; [exact H1 | exact (H2 eq_refl eq_refl eq_refl)].
Defined.

(** ** A send that goes out *)

(** ** The two halves of a send *)

Lemma getChatHistory_ext w1 w2 :
  localStorage w1 = localStorage w2 ->
  ChatService.getChatHistory w1 = ChatService.getChatHistory w2.
Proof. unfold ChatService.getChatHistory. by intros ->. Qed.

Lemma handleSend_halves env text image audio reply σ :
  nothing_to_send text image audio = false ->
  handleSend env text image audio reply σ
  = let B := handleSend_begin text image audio σ in
    handleSend_settle env (fst B)
      (ChatService.settle (DEV env) text (ui_language env) reply)
      (fst (snd B),
       snd (ChatService.sendMessage (DEV env) text (ui_language env)
              image audio reply (snd (snd B)))).
Proof.
  intros H. unfold handleSend. rewrite H.
  by destruct (handleSend_begin text image audio σ) as [u [s1 w1]].
Qed.

Lemma sendMessage_storage dev text l image audio reply w :
  localStorage (snd (ChatService.sendMessage dev text l image audio reply w))
  = localStorage w.
Proof. done. Qed.

Lemma sendMessage_quota dev text l image audio reply w :
  quota (snd (ChatService.sendMessage dev text l image audio reply w))
  = quota w.
Proof. done. Qed.

Lemma saveChatHistory_throws_ext s w1 w2 :
  localStorage w1 = localStorage w2 -> quota w1 = quota w2 ->
  ChatService.saveChatHistory_throws s w1
  = ChatService.saveChatHistory_throws s w2.
Proof.
  unfold ChatService.saveChatHistory_throws, ChatService.setItem_throws,
    ChatService.getChatHistory.
  by intros -> ->.
Qed.

Lemma saveChatHistory_accepted s w :
  (forall v, quota w v = true) ->
  ChatService.saveChatHistory_throws s w = false.
Proof.
  intros H. unfold ChatService.saveChatHistory_throws,
    ChatService.setItem_throws.
  by rewrite H.
Qed.

Lemma saveChatHistory_refused s w :
  (forall v, quota w v = false) ->
  ChatService.saveChatHistory_throws s w = true.
Proof.
  intros H. unfold ChatService.saveChatHistory_throws,
    ChatService.setItem_throws.
  by rewrite H.
Qed.

Lemma begin_state text image audio st w :
  let B := handleSend_begin text image audio (st, w) in
  localStorage (snd (snd B)) = localStorage w
  /\ sessions (fst (snd B)) = sessions st
  /\ currentSession (fst (snd B)) = fst B
  /\ isLoading (fst (snd B)) = true
  /\ quota (snd (snd B)) = quota w.
Proof. done. Qed.

Lemma begin_session text image audio st w :
  let u := fst (handleSend_begin text image audio (st, w)) in
  id u = id (currentSession st)
  /\ createdAt u = createdAt (currentSession st)
  /\ title u
     = (if (length (messages (currentSession st)) =? 0)%nat
           && truthy (trim text)
        then generateTitle text else title (currentSession st))
  /\ exists m, messages u = messages (currentSession st) ++ [m]
       /\ role m = user /\ content m = text
       /\ imageUrl m = image /\ audioUrl m = audio.
Proof.
  unfold handleSend_begin, Date_new, Date_now.
  cbn [fst snd with_updatedAt with_messages messages].
  rewrite length_app, Nat.add_1_r.
  change (S ?n =? 1)%nat with (n =? 0)%nat.
  destruct (_ && _); cbn; eauto 10.
Qed.

Lemma reply_world u r w :
  let w1 := snd (handleSend_reply u r w) in
  localStorage w1 = localStorage w /\ quota w1 = quota w
  /\ network w1 = network w /\ sessionId w1 = sessionId w
  /\ clock w1 = clock w /\ reads w1 = (reads w + 3)%nat.
Proof. cbn. repeat split. lia. Qed.

Lemma reply_session u r w :
  let final := fst (handleSend_reply u r w) in
  id final = id u /\ createdAt final = createdAt u /\ title final = title u
  /\ exists m, messages final = messages u ++ [m]
       /\ role m = assistant /\ content m = r
       /\ imageUrl m = None /\ audioUrl m = None.
Proof.
  unfold handleSend_reply, Date_new, Date_now.
  cbn [fst currentSession with_updatedAt with_messages id createdAt title
       messages].
  eauto 10.
Qed.

Lemma catch_state env u st w :
  let σ' := handleSend_catch env u (st, w) in
  localStorage (snd σ') = localStorage w
  /\ sessions (fst σ') = sessions st
  /\ isLoading (fst σ') = false.
Proof. done. Qed.

Lemma catch_world env u st w :
  let w1 := snd (handleSend_catch env u (st, w)) in
  quota w1 = quota w /\ network w1 = network w /\ sessionId w1 = sessionId w
  /\ clock w1 = clock w /\ reads w1 = (reads w + 3)%nat.
Proof. cbn. repeat split. lia. Qed.

Lemma catch_session env u σ :
  let final := currentSession (fst (handleSend_catch env u σ)) in
  id final = id u /\ createdAt final = createdAt u /\ title final = title u
  /\ exists m, messages final = messages u ++ [m]
       /\ role m = assistant /\ content m = t env (utf16 "maintenance")
       /\ imageUrl m = None /\ audioUrl m = None.
Proof.
  destruct σ as [st w]. unfold handleSend_catch, Date_new, Date_now.
  cbn [fst currentSession with_updatedAt with_messages id createdAt title
       messages].
  eauto 10.
Qed.

(** The three ways a send ends: the reply is saved, the write is refused,
    the promise is rejected. *)
Lemma settle_cases env u outcome st w :
  let σ' := handleSend_settle env u outcome (st, w) in
  match outcome with
  | ChatService.Resolved r =>
      let R := handleSend_reply u r w in
      if ChatService.saveChatHistory_throws (fst R) w
      then σ' = handleSend_catch env u (st, snd R)
      else σ' = (mkState (index_update (fst R) (sessions st)) (fst R) false,
                 ChatService.saveChatHistory (fst R) (snd R))
  | ChatService.Rejected _ => σ' = handleSend_catch env u (st, w)
  end.
Proof.
  destruct outcome as [r|e]; [|done]. cbv zeta.
  unfold handleSend_settle.
  pose proof (reply_world u r w) as (Rs & Rq & _).
  destruct (handleSend_reply u r w) as [final w1]. cbn [fst snd] in *.
  rewrite (saveChatHistory_throws_ext final w1 w Rs Rq).
  by destruct (ChatService.saveChatHistory_throws final w).
Qed.

Lemma settle_session env u outcome st w :
  let final := currentSession (fst (handleSend_settle env u outcome (st, w))) in
  id final = id u /\ createdAt final = createdAt u /\ title final = title u
  /\ exists m, messages final = messages u ++ [m]
       /\ role m = assistant
       /\ content m
          = match outcome with
            | ChatService.Resolved r =>
                if ChatService.saveChatHistory_throws
                     (fst (handleSend_reply u r w)) w
                then t env (utf16 "maintenance") else r
            | ChatService.Rejected _ => t env (utf16 "maintenance")
            end
       /\ imageUrl m = None /\ audioUrl m = None.
Proof.
  pose proof (settle_cases env u outcome st w) as H. cbv zeta in *.
  destruct outcome as [r|e].
  - destruct (ChatService.saveChatHistory_throws _ w); rewrite H.
    + apply catch_session.
    + apply reply_session.
  - rewrite H. apply catch_session.
Qed.

Lemma settle_resolved env u r st w :
  let σ' := handleSend_settle env u (ChatService.Resolved r) (st, w) in
  let final := currentSession (fst σ') in
  ChatService.saveChatHistory_throws (fst (handleSend_reply u r w)) w = false ->
  final = fst (handleSend_reply u r w)
  /\ localStorage (snd σ')
     = Some (ChatService.stringify
               (ChatService.upsert final (ChatService.getChatHistory w)))
  /\ sessions (fst σ') = index_update final (sessions st)
  /\ isLoading (fst σ') = false.
Proof.
  intros σ' final Hw. subst final σ'.
  pose proof (settle_cases env u (ChatService.Resolved r) st w) as H.
  cbv beta zeta iota in H. rewrite Hw in H. rewrite H. done.
Qed.

Lemma settle_refused env u r st w :
  let σ' := handleSend_settle env u (ChatService.Resolved r) (st, w) in
  ChatService.saveChatHistory_throws (fst (handleSend_reply u r w)) w = true ->
  localStorage (snd σ') = localStorage w
  /\ sessions (fst σ') = sessions st
  /\ isLoading (fst σ') = false.
Proof.
  intros σ' Hw. subst σ'.
  pose proof (settle_cases env u (ChatService.Resolved r) st w) as H.
  cbv beta zeta iota in H. rewrite Hw in H. rewrite H. done.
Qed.

Lemma settle_rejected env u e st w :
  let σ' := handleSend_settle env u (ChatService.Rejected e) (st, w) in
  localStorage (snd σ') = localStorage w
  /\ sessions (fst σ') = sessions st
  /\ isLoading (fst σ') = false.
Proof. done. Qed.

Lemma settle_loading env u outcome st w :
  isLoading (fst (handleSend_settle env u outcome (st, w))) = false.
Proof.
  pose proof (settle_cases env u outcome st w) as H. cbv zeta in H.
  destruct outcome as [r|e]; [|by rewrite H].
  destruct (ChatService.saveChatHistory_throws _ w); by rewrite H.
Qed.

(** A send whose promise resolves, seen from outside: the session that
    the [try] block has built either is saved, indexed and shown, or is
    refused by the store and dropped for the error notice. *)
Lemma send_resolved env text image audio reply st w r :
  nothing_to_send text image audio = false ->
  ChatService.settle (DEV env) text (ui_language env) reply
  = ChatService.Resolved r ->
  let σ' := handleSend env text image audio reply (st, w) in
  let final := currentSession (fst σ') in
  exists attempted m1 m2,
    messages attempted = messages (currentSession st) ++ [m1; m2]
    /\ id attempted = id (currentSession st)
    /\ role m1 = user /\ content m1 = text
    /\ role m2 = assistant /\ content m2 = r
    /\ if ChatService.saveChatHistory_throws attempted w
       then localStorage (snd σ') = localStorage w
            /\ sessions (fst σ') = sessions st
            /\ exists m3,
                 messages final = messages (currentSession st) ++ [m1; m3]
                 /\ role m3 = assistant
                 /\ content m3 = t env (utf16 "maintenance")
       else final = attempted
            /\ localStorage (snd σ')
               = Some (ChatService.stringify
                         (ChatService.upsert attempted
                            (ChatService.getChatHistory w)))
            /\ sessions (fst σ') = index_update attempted (sessions st).
Proof.
  intros H Hr σ' final. subst final σ'. rewrite handleSend_halves by done.
  cbv zeta. rewrite Hr.
  pose proof (begin_state text image audio st w) as (Bs & Bi & _ & _ & Bq).
  pose proof (begin_session text image audio st w)
    as (Bid & _ & _ & m1 & Bm & Br & Bc & _).
  set (B := handleSend_begin text image audio (st, w)) in *.
  destruct B as [u [s1 w1]]. cbn [fst snd] in *.
  set (w2 := snd (ChatService.sendMessage (DEV env) text (ui_language env)
                    image audio reply w1)).
  assert (Hs2 : localStorage w2 = localStorage w)
    by (subst w2; by rewrite sendMessage_storage).
  assert (Hq2 : quota w2 = quota w)
    by (subst w2; by rewrite sendMessage_quota).
  pose proof (reply_session u r w2) as (Rid & _ & _ & m2 & Rm & Rr & Rc & _).
  exists (fst (handleSend_reply u r w2)), m1, m2.
  split; [by rewrite Rm, Bm, <- app_assoc|].
  split; [by rewrite Rid|]. do 4 (split; [done|]).
  rewrite <- (saveChatHistory_throws_ext _ w2 w Hs2 Hq2).
  destruct (ChatService.saveChatHistory_throws _ w2) eqn:Hw.
  - destruct (settle_refused env u r s1 w2 Hw) as (S1 & S2 & _).
    rewrite S1, S2, Hs2, Bi. do 2 (split; [done|]).
    pose proof (settle_session env u (ChatService.Resolved r) s1 w2)
      as (_ & _ & _ & m3 & Sm & Sr & Sc & _).
    rewrite Hw in Sc. exists m3. by rewrite Sm, Bm, <- app_assoc.
  - destruct (settle_resolved env u r s1 w2 Hw) as (S0 & S1 & S2 & _).
    rewrite S2, S1, S0, Bi. split; [done|]. split; [|done].
    do 3 f_equal. by apply getChatHistory_ext.
Qed.

Lemma send_rejected env text image audio reply st w e :
  nothing_to_send text image audio = false ->
  ChatService.settle (DEV env) text (ui_language env) reply
  = ChatService.Rejected e ->
  let σ' := handleSend env text image audio reply (st, w) in
  let final := currentSession (fst σ') in
  localStorage (snd σ') = localStorage w
  /\ sessions (fst σ') = sessions st
  /\ exists m1 m2,
       messages final = messages (currentSession st) ++ [m1; m2]
       /\ role m1 = user /\ content m1 = text
       /\ role m2 = assistant
       /\ content m2 = t env (utf16 "maintenance").
Proof.
  intros H Hr σ' final. subst final σ'. rewrite handleSend_halves by done.
  cbv zeta. rewrite Hr.
  pose proof (begin_state text image audio st w) as (Bs & Bi & _).
  pose proof (begin_session text image audio st w) as (_ & _ & _ & Bm).
  set (B := handleSend_begin text image audio (st, w)) in *.
  destruct B as [u [s1 w1]]. cbn [fst snd] in *.
  match goal with |- context [handleSend_settle ?a ?b ?c (?d, ?w2)] =>
    destruct (settle_rejected a b e d w2) as (S1 & S2 & _);
    pose proof (settle_session a b c d w2)
      as (_ & _ & _ & m2 & Sm & ? & ? & _)
  end.
  rewrite S1, S2, sendMessage_storage. split; [done|]. split; [done|].
  destruct Bm as (m1 & Bm & ? & ? & _).
  exists m1, m2. rewrite Sm, Bm, <- app_assoc. done.
Qed.


(** Claim C1.  What a send that goes out persists.  When the promise of
    [sendMessage] resolves, the [try] block builds the session with the
    reply and calls [saveChatHistory]: when the store takes the text, that
    session is written, put in the index and shown; when the store refuses
    it, the [catch] block runs as it does for a rejected promise.  On that
    path the error notice is appended to the session on screen, and
    neither the stored history nor the index is touched. *)
Theorem send_persists_on_success_only env text image audio reply st w :
  nothing_to_send text image audio = false ->
  let σ' := handleSend env text image audio reply (st, w) in
  let final := currentSession (fst σ') in
  match ChatService.settle (DEV env) text (ui_language env) reply with
  | ChatService.Resolved r =>
      exists attempted m1 m2,
        messages attempted = messages (currentSession st) ++ [m1; m2]
        /\ id attempted = id (currentSession st)
        /\ role m1 = user /\ content m1 = text
        /\ role m2 = assistant /\ content m2 = r
        /\ if ChatService.saveChatHistory_throws attempted w
           then localStorage (snd σ') = localStorage w
                /\ sessions (fst σ') = sessions st
                /\ exists m3,
                     messages final = messages (currentSession st) ++ [m1; m3]
                     /\ role m3 = assistant
                     /\ content m3 = t env (utf16 "maintenance")
           else final = attempted
                /\ localStorage (snd σ')
                   = Some (ChatService.stringify
                             (ChatService.upsert attempted
                                (ChatService.getChatHistory w)))
                /\ sessions (fst σ') = index_update attempted (sessions st)
  | ChatService.Rejected _ =>
      localStorage (snd σ') = localStorage w
      /\ sessions (fst σ') = sessions st
      /\ exists m1 m2,
           messages final = messages (currentSession st) ++ [m1; m2]
           /\ role m1 = user /\ content m1 = text
           /\ role m2 = assistant
           /\ content m2 = t env (utf16 "maintenance")
  end.
Proof.
  intros H σ' final.
  destruct (ChatService.settle _ _ _ _) as [r|e] eqn:E.
  - exact (send_resolved env text image audio reply st w r H E).
  - exact (send_rejected env text image audio reply st w e H E).
Qed.

Lemma send_persists_on_success_only_witness :
  let σ := Sample.fresh Sample.production in
  let ρ := (fst σ, Sample.refusing) in
  let rejected := handleSend Sample.production Sample.hello None None
                    FetchFailed σ in
  let saved := handleSend Sample.production Sample.hello None None
                 Sample.answer σ in
  let refused := handleSend Sample.production Sample.hello None None
                   Sample.answer ρ in
  (localStorage (snd rejected) = localStorage (snd σ)
   /\ sessions (fst rejected) = sessions (fst σ))
  /\ (localStorage (snd saved)
      = Some (ChatService.stringify [currentSession (fst saved)])
      /\ sessions (fst saved) = [currentSession (fst saved)])
  /\ (localStorage (snd refused) = localStorage (snd ρ)
      /\ sessions (fst refused) = sessions (fst ρ)).
Proof.
  intros σ ρ rejected saved refused. split; [|split].
  - pose proof (send_persists_on_success_only Sample.production Sample.hello
                  None None FetchFailed (fst σ) (snd σ) eq_refl) as H.
    destruct H as (H1 & H2 & _). split; [exact H1 | exact H2].
  - pose proof (send_persists_on_success_only Sample.production Sample.hello
                  None None Sample.answer (fst σ) (snd σ) eq_refl) as H.
    change (ChatService.settle _ _ _ _)
      with (ChatService.Resolved (utf16 "Hi, how can I help?")) in H.
    cbv beta iota zeta in H.
    destruct H as (a & m1 & m2 & _ & _ & _ & _ & _ & _ & H).
    rewrite saveChatHistory_accepted in H by reflexivity.
    destruct H as (Hf & Hs & Hi).
    change (fst σ, snd σ) with σ in Hf, Hs, Hi. fold saved in Hf, Hs, Hi.
    rewrite Hf, Hs, Hi. split; reflexivity.
  - pose proof (send_persists_on_success_only Sample.production Sample.hello
                  None None Sample.answer (fst ρ) (snd ρ) eq_refl) as H.
    change (ChatService.settle _ _ _ _)
      with (ChatService.Resolved (utf16 "Hi, how can I help?")) in H.
    cbv beta iota zeta in H.
    destruct H as (a & m1 & m2 & _ & _ & _ & _ & _ & _ & H).
    rewrite saveChatHistory_refused in H by reflexivity.
    destruct H as (Hs & Hi & _).
    split; [exact Hs | exact Hi].
Defined.

(** ** The title *)

Lemma generateTitle_short text :
  (length text <= 30)%nat -> generateTitle text = text.
Proof.
  intros H. unfold generateTitle.
  by rewrite (proj2 (Nat.leb_le _ _) H).
Qed.

Lemma generateTitle_long text :
  (30 < length text)%nat ->
  generateTitle text = take 30 text ++ utf16 "...".
Proof.
  intros H. unfold generateTitle.
  by rewrite (proj2 (Nat.leb_gt _ _) H).
Qed.

Lemma handleSend_title env text image audio reply st w :
  nothing_to_send text image audio = false ->
  title (currentSession (fst (handleSend env text image audio reply (st, w))))
  = if (length (messages (currentSession st)) =? 0)%nat
       && truthy (trim text)
    then generateTitle text else title (currentSession st).
Proof.
  intros H. rewrite handleSend_halves by done. cbv zeta.
  match goal with |- context [handleSend_settle ?a ?b ?c (?d, ?e)] =>
    pose proof (settle_session a b c d e) as (_ & _ & -> & _)
  end.
  by pose proof (begin_session text image audio st w) as (_ & _ & -> & _).
Qed.

(** Claim C3.  Title derivation.  [generateTitle] returns a text of at
    most 30 code units unchanged, and the first 30 code units followed by
    ["..."] otherwise.  A send sets the title to [generateTitle text]
    when the session has no message yet and the trimmed text is not
    empty (for text that the composer has trimmed: when it is not
    empty); on a session that has messages, or with blank text, the
    title stays as it is. *)
Theorem title_derivation env text image audio reply st w :
  let σ' := handleSend env text image audio reply (st, w) in
  ((length text <= 30)%nat -> generateTitle text = text)
  /\ ((30 < length text)%nat ->
      generateTitle text = take 30 text ++ utf16 "...")
  /\ (messages (currentSession st) = [] -> truthy (trim text) = true ->
      title (currentSession (fst σ')) = generateTitle text)
  /\ (forall typed, text = trim typed -> text ≠ [] ->
      messages (currentSession st) = [] ->
      title (currentSession (fst σ')) = generateTitle text)
  /\ (messages (currentSession st) ≠ [] ->
      title (currentSession (fst σ')) = title (currentSession st))
  /\ (truthy (trim text) = false ->
      title (currentSession (fst σ')) = title (currentSession st)).
Proof.
  intros σ'. subst σ'.
  split; [apply generateTitle_short|]. split; [apply generateTitle_long|].
  assert (Hfirst : messages (currentSession st) = [] ->
            truthy (trim text) = true ->
            title (currentSession
                     (fst (handleSend env text image audio reply (st, w))))
            = generateTitle text).
  { intros Hm Ht. rewrite handleSend_title.
    - by rewrite Hm, Ht.
    - unfold nothing_to_send. by rewrite Ht. }
  split; [exact Hfirst|]. split; [|split].
  - intros typed -> Hne Hm. apply Hfirst; [done|].
    rewrite trim_idem. by destruct (trim typed).
  - intros Hm.
    destruct (nothing_to_send text image audio) eqn:Hn.
    + unfold handleSend. by rewrite Hn.
    + rewrite handleSend_title by done.
      by destruct (messages (currentSession st)).
  - intros Ht.
    destruct (nothing_to_send text image audio) eqn:Hn.
    + unfold handleSend. by rewrite Hn.
    + rewrite handleSend_title by done. by rewrite Ht, andb_false_r.
Qed.

Lemma title_derivation_witness :
  let σ := Sample.fresh Sample.production in
  let σ' := handleSend Sample.production Sample.hello None None
              Sample.answer σ in
  let σ'' := handleSend Sample.production
               (utf16 "What should I sow after the monsoon rains?")
               None None Sample.answer σ' in
  title (currentSession (fst σ')) = Sample.hello
  /\ title (currentSession (fst σ'')) = Sample.hello.
Proof.
  intros σ σ' σ''. split.
  - destruct (title_derivation Sample.production Sample.hello None None
                Sample.answer (fst σ) (snd σ)) as (Hs & _ & Hf & _).
    rewrite <- (Hs ltac:(vm_compute; lia)).
    exact (Hf eq_refl eq_refl).
  - destruct (title_derivation Sample.production
                (utf16 "What should I sow after the monsoon rains?")
                None None Sample.answer (fst σ') (snd σ'))
      as (_ & _ & _ & _ & Hl & _).
    rewrite <- surjective_pairing in Hl. subst σ''. rewrite Hl.
    + vm_compute. reflexivity.
    + vm_compute. discriminate.
Defined.

(** ** The index *)







(** A first message sent from a production build while the endpoint is
    down: two messages on screen, nothing stored, nothing in the
    index. *)
Lemma absorbed_failure_is_lost :
  let σ := Sample.fresh Sample.production in
  let σ' := handleSend Sample.production Sample.hello None None
              FetchFailed σ in
  length (messages (currentSession (fst σ'))) = 2%nat
  /\ localStorage (snd σ') = None
  /\ sessions (fst σ') = []
  /\ ChatService.getChatHistory (snd σ') = [].
Proof. vm_compute. done. Qed.

(** The same message when the endpoint answers and the store takes no
    more text: the write throws inside the [try] block, the notice stands
    where the reply would, and nothing is stored or indexed. *)
Lemma refused_write_is_lost :
  let σ := (fst (Sample.fresh Sample.production), Sample.refusing) in
  let σ' := handleSend Sample.production Sample.hello None None
              Sample.answer σ in
  content <$> last (messages (currentSession (fst σ')))
  = Some (t Sample.production (utf16 "maintenance"))
  /\ localStorage (snd σ') = None
  /\ sessions (fst σ') = []
  /\ reads (snd σ') = 9%nat.
Proof. vm_compute. done. Qed.
End Page.

Section Recording.
Import ChatInput.

(** Claim C8.  [stopRecording] while not recording changes nothing: not
    the recording flag, not the held clip, not the devices or timers. *)
Theorem stop_when_idle_is_noop (st : State) (dev : Devices) :
  isRecording st = false -> stopRecording (st, dev) = (st, dev).
Proof.
  intros H. unfold stopRecording. rewrite H.
  by destruct (mediaRecorderRef st).
Qed.

Lemma stop_when_idle_is_noop_witness :
  stopRecording Sample.composer = Sample.composer.
Proof.
  exact (stop_when_idle_is_noop (fst Sample.composer) (snd Sample.composer)
           eq_refl).
Defined.
End Recording.

(* ================================================================== *)
(** * More on the session history *)
(* ================================================================== *)

Section HistoryFacts.
Import ChatService.

Lemma getChatHistory_save_ids s w :
  map id (getChatHistory (saveChatHistory s w))
  = map id (upsert s (getChatHistory w)).
Proof. rewrite getChatHistory_save, map_map. done. Qed.

Lemma map_id_insert (s : ChatSession) h i x :
  h !! i = Some x -> id x = id s -> map id (<[i := s]> h) = map id h.
Proof.
  revert i. induction h as [|y h IH]; intros [|i] Hx Hid; simpl in *; try done.
  - injection Hx as ->. by rewrite Hid.
  - by rewrite IH.
Qed.

Lemma NoDup_tail {A} (l : list A) : NoDup l -> NoDup (tail l).
Proof. destruct l; [done|]. by inversion 1. Qed.

(** Saving never stores one id twice. *)
Theorem save_keeps_ids_unique (s : ChatSession) (w : World) :
  (length (getChatHistory w) <= 50)%nat ->
  NoDup (map id (getChatHistory w)) ->
  NoDup (map id (getChatHistory (saveChatHistory s w))).
Proof.
  intros Hlen Hnd. rewrite getChatHistory_save_ids.
  set (h := getChatHistory w) in *.
  destruct (findIndex (id s) h) as [i|] eqn:E.
  - rewrite (upsert_existing _ _ i) by done.
    apply findIndex_Some in E as (x & Hx & Hid & _).
    by rewrite (map_id_insert _ _ _ x).
  - assert (Hfresh : id s ∉ map id h).
    { apply findIndex_None in E. intros Hin.
      apply list_elem_of_In, in_map_iff in Hin as (x & Hid & Hx).
      rewrite Forall_forall in E. apply (E x); [by apply list_elem_of_In|done]. }
    assert (Hnew : NoDup (map id h ++ [id s])).
    { apply NoDup_app. split; [done|]. split; [|apply NoDup_singleton].
      intros x Hx ->%list_elem_of_singleton. done. }
    destruct (decide (length h = 50%nat)).
    + rewrite upsert_full by done. rewrite map_app. simpl.
      destruct h as [|y h']; [done|]. simpl in *.
      by apply NoDup_cons in Hnew as [_ ?].
    + rewrite upsert_new by (done || lia). by rewrite map_app.
Qed.

Lemma save_keeps_ids_unique_witness :
  let replaced := saveChatHistory (Sample.renamed 7) Sample.full in
  let appended := saveChatHistory (Sample.session "fifty-first" 51)
                    Sample.full in
  ((id (Sample.renamed 7) ∈ map id (getChatHistory Sample.full))
   /\ NoDup (map id (getChatHistory replaced)))
  /\ ((id (Sample.session "fifty-first" 51)
       ∉ map id (getChatHistory Sample.full))
      /\ NoDup (map id (getChatHistory appended))).
Proof.
  intros replaced appended.
  assert (Hlen : (length (getChatHistory Sample.full) <= 50)%nat)
    by (vm_compute; lia).
  assert (Hnd : NoDup (map id (getChatHistory Sample.full)))
    by (apply (bool_decide_unpack _); vm_compute; exact I).
  split; split.
  - apply (bool_decide_unpack _). vm_compute. exact I.
  - exact (save_keeps_ids_unique (Sample.renamed 7) Sample.full Hlen Hnd).
  - apply (bool_decide_unpack _). vm_compute. exact I.
  - exact (save_keeps_ids_unique (Sample.session "fifty-first" 51)
             Sample.full Hlen Hnd).
Defined.

Lemma revive_sessions_toJSON h :
  Forall (λ s, valid_session s = true) h ->
  map (λ s, revive_session (session_toJSON s)) h = h.
Proof.
  induction 1 as [|s h Hs _ IH]; [done|]. simpl.
  by rewrite revive_session_toJSON, IH.
Qed.

Lemma map_id_filter sid (h : list ChatSession) :
  map id (filter (λ s, id s ≠ sid) h) = filter (λ i, i ≠ sid) (map id h).
Proof.
  induction h as [|s h IH]; [done|]. simpl.
  rewrite !filter_cons. case_decide; simpl; by rewrite IH.
Qed.

Lemma filter_absent (sid : jsstring) (l : list jsstring) :
  sid ∉ l -> filter (λ i, i ≠ sid) l = l.
Proof.
  induction l as [|i l IH]; [done|].
  intros [Hne Hl]%not_elem_of_cons.
  rewrite filter_cons, decide_True by congruence. f_equal. auto.
Qed.

(** [deleteChatSession] removes every stored session of that id and keeps
    the others, in their order. *)
Theorem delete_removes_the_id (sid : jsstring) (w : World) :
  let w' := deleteChatSession sid w in
  map id (getChatHistory w')
  = filter (λ i, i ≠ sid) (map id (getChatHistory w))
  /\ findIndex sid (getChatHistory w') = None
  /\ (Forall (λ s, valid_session s = true) (getChatHistory w) ->
      getChatHistory w' = filter (λ s, id s ≠ sid) (getChatHistory w))
  /\ (sid ∉ map id (getChatHistory w) ->
      map id (getChatHistory w') = map id (getChatHistory w)).
Proof.
  intros w'. subst w'. unfold deleteChatSession.
  set (h := getChatHistory w).
  assert (Hids : map id (getChatHistory
                           (set_localStorage
                              (Some (stringify (filter (λ s, id s ≠ sid) h))) w))
                 = filter (λ i, i ≠ sid) (map id h)).
  { rewrite getChatHistory_written, map_map. simpl. apply map_id_filter. }
  split; [done|]. split; [|split].
  - apply findIndex_None, Forall_forall. intros x Hx Hid.
    assert (Hin : sid ∈ filter (λ i, i ≠ sid) (map id h)).
    { rewrite <- Hids. apply list_elem_of_In, in_map_iff. exists x.
      split; [done | by apply list_elem_of_In]. }
    apply list_elem_of_filter in Hin as [Hne _]. by apply Hne.
  - intros Hv. rewrite getChatHistory_written.
    apply revive_sessions_toJSON.
    apply Forall_forall. intros x [_ Hx]%list_elem_of_filter.
    rewrite Forall_forall in Hv. auto.
  - intros Hnot. rewrite Hids. by apply filter_absent.
Qed.

Lemma delete_removes_the_id_witness :
  let w := saveChatHistory (Sample.session "b" 2)
             (saveChatHistory (Sample.session "a" 1) Sample.browser) in
  getChatHistory (deleteChatSession (utf16 "a") w) = [Sample.session "b" 2].
Proof.
  intros w.
  destruct (delete_removes_the_id (utf16 "a") w) as (_ & _ & Hv & _).
  rewrite Hv; [vm_compute; reflexivity|].
  repeat constructor.
Defined.

(** After [clearAllHistory] nothing is loaded, whatever was stored, and
    the next save starts a history of one session. *)
Theorem clear_then_save (s : ChatSession) (w : World) :
  getChatHistory (clearAllHistory w) = []
  /\ localStorage (saveChatHistory s (clearAllHistory w))
     = Some (stringify [s])
  /\ (valid_session s = true ->
      getChatHistory (saveChatHistory s (clearAllHistory w)) = [s]).
Proof.
  split; [done|]. split; [done|].
  intros Hs. rewrite getChatHistory_save. simpl.
  by rewrite revive_session_toJSON.
Qed.

Lemma clear_then_save_witness :
  getChatHistory (saveChatHistory (Sample.session "a" 1)
                    (clearAllHistory Sample.browser))
  = [Sample.session "a" 1].
Proof.
  exact (proj2 (proj2 (clear_then_save (Sample.session "a" 1) Sample.browser))
           eq_refl).
Defined.

(** An invalid date does not survive the store: it is written as [null]
    and read back as the epoch. *)
Theorem invalid_date_comes_back_as_epoch (s : ChatSession) (w : World) :
  createdAt s = InvalidDate ->
  (length (getChatHistory w) <= 50)%nat ->
  exists s', s' ∈ getChatHistory (saveChatHistory s w)
             /\ id s' = id s /\ title s' = title s
             /\ createdAt s' = Time 0.
Proof.
  intros Hc Hlen. exists (revive_session (session_toJSON s)).
  split; [|split; [done|split; [done|]]].
  - rewrite getChatHistory_save.
    apply list_elem_of_In, in_map_iff. exists s.
    split; [done | by apply list_elem_of_In, upsert_elem].
  - simpl. by rewrite Hc.
Qed.

Lemma invalid_date_comes_back_as_epoch_witness :
  exists s', s' ∈ getChatHistory
                    (saveChatHistory
                       (mkSession (utf16 "a") (utf16 "a") [] InvalidDate
                          (Time 1)) Sample.browser)
             /\ createdAt s' = Time 0.
Proof.
  destruct (invalid_date_comes_back_as_epoch
              (mkSession (utf16 "a") (utf16 "a") [] InvalidDate (Time 1))
              Sample.browser eq_refl ltac:(vm_compute; lia))
    as (s' & Hin & _ & _ & Hc).
  exists s'. split; [exact Hin | exact Hc].
Defined.

(** First in, first out: sessions with distinct ids saved one after the
    other into an empty store leave the last fifty of them, in the order
    of saving. *)
Theorem history_keeps_last_fifty (l : list ChatSession) (w : World) :
  NoDup (map id l) ->
  Forall (λ s, valid_session s = true) l ->
  getChatHistory (foldl (λ w s, saveChatHistory s w) (clearAllHistory w) l)
  = drop (length l - 50) l.
Proof.
  induction l as [|s l IH] using rev_ind; intros Hnd Hv; [done|].
  rewrite map_app in Hnd. apply NoDup_app in Hnd as (Hnd & Hfresh & _).
  apply Forall_app in Hv as [Hv Hs].
  rewrite foldl_app. simpl. rewrite getChatHistory_save, IH by done.
  assert (Hnew : findIndex (id s) (drop (length l - 50) l) = None).
  { apply findIndex_None, Forall_forall. intros x Hx Hid.
    apply (Hfresh (id s)).
    - apply list_elem_of_In, in_map_iff. exists x. split; [done|].
      apply list_elem_of_In.
      rewrite <- (take_drop (length l - 50) l). apply elem_of_app. by right.
    - by apply list_elem_of_singleton. }
  assert (Hreload : forall h, Forall (λ s, valid_session s = true) h ->
            map (λ s, revive_session (session_toJSON s)) h = h)
    by apply revive_sessions_toJSON.
  rewrite length_app. simpl.
  destruct (decide (length l < 50)%nat) as [Hlt|Hge].
  - rewrite upsert_new by (done || rewrite length_drop; lia).
    replace (length l - 50)%nat with 0%nat by lia.
    replace (length l + 1 - 50)%nat with 0%nat by lia.
    rewrite !drop_0. by apply Hreload, Forall_app.
  - rewrite upsert_full by (done || rewrite length_drop; lia).
    replace (length l + 1 - 50)%nat with (S (length l - 50)) by lia.
    rewrite drop_app_le by lia.
    replace (tail (drop (length l - 50) l)) with (drop (S (length l - 50)) l)
      by (rewrite <- Nat.add_1_r, <- drop_drop;
          by destruct (drop (length l - 50) l)).
    apply Hreload, Forall_app. split; [|done].
    by apply Forall_drop.
Qed.
End HistoryFacts.

(* ================================================================== *)
(** * More on the page *)
(* ================================================================== *)

Section PageFacts.
Import ChatPage.

Implicit Types (env : Env) (st : State) (w : World) (σ : State * World)
  (text : jsstring) (image audio : option jsstring) (reply : FetchResult).

Lemma begin_world text image audio st w :
  let w1 := snd (snd (handleSend_begin text image audio (st, w))) in
  network w1 = network w /\ sessionId w1 = sessionId w
  /\ clock w1 = clock w /\ reads w1 = (reads w + 3)%nat.
Proof. cbn. repeat split. lia. Qed.

Lemma saveChatHistory_world s w :
  network (ChatService.saveChatHistory s w) = network w
  /\ sessionId (ChatService.saveChatHistory s w) = sessionId w
  /\ clock (ChatService.saveChatHistory s w) = clock w
  /\ reads (ChatService.saveChatHistory s w) = reads w
  /\ quota (ChatService.saveChatHistory s w) = quota w.
Proof. done. Qed.

Lemma settle_world env u outcome st w :
  let w1 := snd (handleSend_settle env u outcome (st, w)) in
  network w1 = network w /\ sessionId w1 = sessionId w
  /\ clock w1 = clock w /\ quota w1 = quota w
  /\ (reads w1 = (reads w + 3)%nat \/ reads w1 = (reads w + 6)%nat).
Proof.
  pose proof (settle_cases env u outcome st w) as H.
  cbv beta zeta iota in H.
  pose proof (catch_world env u st w) as (Cq & Cn & Cs & Cc & Cr).
  destruct outcome as [r|e]; [|rewrite H; cbv zeta; auto 10].
  pose proof (reply_world u r w) as (_ & Rq & Rn & Rs & Rc & Rr).
  destruct (ChatService.saveChatHistory_throws _ w); rewrite H; cbv zeta.
  - pose proof (catch_world env u st (snd (handleSend_reply u r w)))
      as (Dq & Dn & Ds & Dc & Dr).
    cbv zeta in *. rewrite Dn, Ds, Dc, Dq, Dr, Rn, Rs, Rc, Rq, Rr.
    repeat split. right. lia.
  - cbn [snd].
    pose proof (saveChatHistory_world (fst (handleSend_reply u r w))
                  (snd (handleSend_reply u r w))) as (Sn & Ss & Sc & Sr & Sq).
    cbv zeta in *. rewrite Sn, Ss, Sc, Sr, Sq, Rn, Rs, Rc, Rq, Rr. auto 10.
Qed.


Lemma handleSend_network env text image audio reply st w :
  nothing_to_send text image audio = false ->
  let σ' := handleSend env text image audio reply (st, w) in
  network (snd σ')
  = network w ++ [mkRequest text image audio (sessionId w) (ui_language env)]
  /\ sessionId (snd σ') = sessionId w
  /\ clock (snd σ') = clock w /\ quota (snd σ') = quota w
  /\ (reads (snd σ') = (reads w + 6)%nat
      \/ reads (snd σ') = (reads w + 9)%nat).
Proof.
  intros H σ'. subst σ'. rewrite handleSend_halves by done. cbv zeta.
  pose proof (begin_world text image audio st w) as (Bn & Bs & Bc & Br).
  pose proof (begin_state text image audio st w) as (_ & _ & _ & _ & Bq).
  set (B := handleSend_begin text image audio (st, w)) in *.
  destruct B as [u [s1 w1]]. cbn [fst snd] in *.
  set (w2 := snd (ChatService.sendMessage (DEV env) text (ui_language env)
                    image audio reply w1)).
  assert (Wn : network w2
               = network w1
                 ++ [mkRequest text image audio (sessionId w1)
                       (ui_language env)]) by done.
  assert (Ws : sessionId w2 = sessionId w1) by done.
  assert (Wc : clock w2 = clock w1) by done.
  assert (Wq : quota w2 = quota w1) by done.
  assert (Wr : reads w2 = reads w1) by done.
  clearbody w2.
  pose proof (settle_world env u
                (ChatService.settle (DEV env) text (ui_language env) reply)
                s1 w2) as (Sn & Ss & Sc & Sq & Sr).
  cbv zeta in Sn, Ss, Sc, Sq, Sr.
  rewrite Sn, Ss, Sc, Sq, Wn, Ws, Wc, Wq, Bn, Bs, Bc, Bq. repeat split.
  rewrite Wr, Br in Sr.
  destruct Sr as [-> | ->]; [left | right]; lia.
Qed.

Lemma handleSend_id env text image audio reply st w :
  id (currentSession (fst (handleSend env text image audio reply (st, w))))
  = id (currentSession st).
Proof.
  destruct (nothing_to_send text image audio) eqn:H.
  - unfold handleSend. by rewrite H.
  - rewrite handleSend_halves by done. cbv zeta.
    match goal with |- context [handleSend_settle ?a ?b ?c (?d, ?e)] =>
      pose proof (settle_session a b c d e) as (-> & _)
    end.
    by pose proof (begin_session text image audio st w) as (-> & _).
Qed.

(** A send that goes out issues exactly one request: the text and the
    attachments as given, the language of the page, and the session id of
    [chatService]. *)
Theorem send_issues_one_request env text image audio reply st w :
  nothing_to_send text image audio = false ->
  let σ' := handleSend env text image audio reply (st, w) in
  network (snd σ')
  = network w ++ [mkRequest text image audio (sessionId w) (ui_language env)]
  /\ sessionId (snd σ') = sessionId w.
Proof.
  intros H σ'.
  destruct (handleSend_network env text image audio reply st w H)
    as (Hn & Hs & _).
  by split.
Qed.

Lemma send_issues_one_request_witness :
  let σ := Sample.fresh Sample.production in
  let σ' := handleSend Sample.production Sample.hello None None FetchFailed σ in
  length (network (snd σ')) = 1%nat.
Proof.
  intros σ σ'.
  destruct (send_issues_one_request Sample.production Sample.hello None None
              FetchFailed (fst σ) (snd σ) eq_refl) as [Hn _].
  change (fst σ, snd σ) with σ in Hn. fold σ' in Hn. by rewrite Hn.
Defined.

Lemma last_two {A} (l : list A) (a b : A) : last (l ++ [a; b]) = Some b.
Proof.
  change [a; b] with ([a] ++ [b]). by rewrite app_assoc, last_snoc.
Qed.

(** A send that goes out appends one exchange, a user message and then an
    assistant message, to the messages that were there; the session keeps
    its id and its creation date, and the page stops loading.  The
    assistant message is the error notice when the promise rejects.  When
    it resolves, the message is the reply and the index is updated, or,
    the write being refused, it is the notice and store and index stay:
    the reply for a store that accepts every text, the notice for one that
    accepts none. *)
Theorem send_appends_one_exchange env text image audio reply st w :
  nothing_to_send text image audio = false ->
  let σ' := handleSend env text image audio reply (st, w) in
  let final := currentSession (fst σ') in
  let outcome := ChatService.settle (DEV env) text (ui_language env) reply in
  let notice := t env (utf16 "maintenance") in
  id final = id (currentSession st)
  /\ createdAt final = createdAt (currentSession st)
  /\ isLoading (fst σ') = false
  /\ exists m1 m2,
       messages final = messages (currentSession st) ++ [m1; m2]
       /\ role m1 = user /\ content m1 = text
       /\ imageUrl m1 = image /\ audioUrl m1 = audio
       /\ role m2 = assistant /\ imageUrl m2 = None /\ audioUrl m2 = None
       /\ (forall e, outcome = ChatService.Rejected e -> content m2 = notice)
       /\ (forall r, outcome = ChatService.Resolved r ->
            (content m2 = r
             /\ sessions (fst σ') = index_update final (sessions st)
             \/ content m2 = notice
                /\ sessions (fst σ') = sessions st
                /\ localStorage (snd σ') = localStorage w)
            /\ ((forall v, quota w v = true) -> content m2 = r)
            /\ ((forall v, quota w v = false) -> content m2 = notice)).
Proof.
  intros H σ' final outcome notice. subst final σ' outcome notice.
  rewrite handleSend_halves by done. cbv zeta.
  pose proof (begin_session text image audio st w) as (Bi & Bc & _ & m1 & Bm).
  pose proof (begin_state text image audio st w) as (Bs & Bx & _ & _ & Bq).
  set (B := handleSend_begin text image audio (st, w)) in *.
  destruct B as [u [s1 w1]]. cbn [fst snd] in *.
  set (w2 := snd (ChatService.sendMessage (DEV env) text (ui_language env)
                    image audio reply w1)).
  assert (Hs2 : localStorage w2 = localStorage w)
    by (subst w2; by rewrite sendMessage_storage).
  assert (Hq2 : quota w2 = quota w)
    by (subst w2; by rewrite sendMessage_quota).
  clearbody w2.
  set (outcome := ChatService.settle (DEV env) text (ui_language env) reply).
  pose proof (settle_session env u outcome s1 w2)
    as (Si & Sc & _ & m2 & Sm & Sr & Scont & Simg & Saud).
  pose proof (settle_loading env u outcome s1 w2) as Hl.
  cbv zeta in Si, Sc, Sm. rewrite Si, Sc, Bi, Bc.
  do 3 (split; [done|]).
  exists m1, m2. destruct Bm as (Bm & ? & ? & ? & ?).
  split; [by rewrite Sm, Bm, <- app_assoc|]. do 7 (split; [done|]).
  split.
  - intros e E. by rewrite E in Scont.
  - intros r E. rewrite E in Scont |- *.
    destruct (ChatService.saveChatHistory_throws
                (fst (handleSend_reply u r w2)) w2) eqn:Hw.
    + destruct (settle_refused env u r s1 w2 Hw) as (S1 & S2 & _).
      split; [right; by rewrite S1, S2, Hs2, Bx|]. split; [|done].
      intros Hall. rewrite saveChatHistory_accepted in Hw; [done|].
      intros v. rewrite Hq2. apply Hall.
    + destruct (settle_resolved env u r s1 w2 Hw) as (_ & _ & S2 & _).
      split; [left; by rewrite S2, Bx|]. split; [done|].
      intros Hall. rewrite saveChatHistory_refused in Hw; [done|].
      intros v. rewrite Hq2. apply Hall.
Qed.

Lemma send_appends_one_exchange_witness :
  let σ := Sample.fresh Sample.production in
  let σ' := handleSend Sample.production Sample.hello None None
              Sample.answer σ in
  let ρ' := handleSend Sample.production Sample.hello None None
              Sample.answer (fst σ, Sample.refusing) in
  content <$> last (messages (currentSession (fst σ')))
  = Some (utf16 "Hi, how can I help?")
  /\ content <$> last (messages (currentSession (fst ρ')))
     = Some (t Sample.production (utf16 "maintenance")).
Proof.
  intros σ σ' ρ'. split.
  - destruct (send_appends_one_exchange Sample.production Sample.hello None
                None Sample.answer (fst σ) (snd σ) eq_refl)
      as (_ & _ & _ & m1 & m2 & Hm & _ & _ & _ & _ & _ & _ & _ & _ & Hr).
    destruct (Hr (utf16 "Hi, how can I help?") eq_refl) as (_ & Hc & _).
    change (fst σ, snd σ) with σ in Hm. fold σ' in Hm.
    rewrite Hm, last_two. cbn [fmap option_fmap option_map].
    exact (f_equal Some (Hc (λ _, eq_refl))).
  - destruct (send_appends_one_exchange Sample.production Sample.hello None
                None Sample.answer (fst σ) Sample.refusing eq_refl)
      as (_ & _ & _ & m1 & m2 & Hm & _ & _ & _ & _ & _ & _ & _ & _ & Hr).
    destruct (Hr (utf16 "Hi, how can I help?") eq_refl) as (_ & _ & Hc).
    fold ρ' in Hm.
    rewrite Hm, last_two. cbn [fmap option_fmap option_map].
    exact (f_equal Some (Hc (λ _, eq_refl))).
Defined.













Lemma deleted_ids (sid : jsstring) w :
  map id (ChatService.getChatHistory (ChatService.deleteChatSession sid w))
  = filter (λ i, i ≠ sid) (map id (ChatService.getChatHistory w)).
Proof.
  unfold ChatService.deleteChatSession.
  rewrite getChatHistory_written, map_map. simpl. apply map_id_filter.
Qed.

(** Selecting a session: an id that is not in the index changes nothing;
    an id that is there makes the first session of that id the current one.
    Either way the index, the store and the session id of [chatService]
    stay as they are. *)
Theorem select_session (sid : jsstring) st w :
  let σ' := handleSelectSession sid (st, w) in
  snd σ' = w /\ sessions (fst σ') = sessions st
  /\ isLoading (fst σ') = isLoading st
  /\ (Forall (λ s, id s ≠ sid) (sessions st) -> σ' = (st, w))
  /\ (forall i s, sessions st !! i = Some s -> id s = sid ->
       (forall j y, sessions st !! j = Some y -> (j < i)%nat -> id y ≠ sid) ->
       currentSession (fst σ') = s).
Proof.
  intros σ'. subst σ'. unfold handleSelectSession.
  destruct (list_find _ (sessions st)) as [[i x]|] eqn:E.
  - apply list_find_Some in E as (Hx & Hid & Hfirst). cbn.
    do 3 (split; [done|]). split.
    + intros Hall. rewrite Forall_forall in Hall.
      exfalso. apply (Hall x); eauto using list_elem_of_lookup_2.
    + intros j s Hs Hsid Hmin.
      destruct (Nat.lt_trichotomy i j) as [Hlt|[->|Hgt]].
      * exfalso. by apply (Hmin i x Hx Hlt).
      * congruence.
      * exfalso. by apply (Hfirst j s Hs Hgt).
  - apply list_find_None in E. cbn. do 4 (split; [done|]).
    intros i s Hs Hsid _. rewrite Forall_forall in E.
    exfalso. apply (E s); eauto using list_elem_of_lookup_2.
Qed.

(** Deleting a session removes its id from the index and from the store.
    When it was the session on screen a new chat is started; otherwise the
    session on screen and the session id of [chatService] stay. *)
Theorem delete_session env (random36 sid : jsstring) st w :
  let σ' := handleDeleteSession env random36 sid (st, w) in
  sessions (fst σ') = filter (λ s, id s ≠ sid) (sessions st)
  /\ map id (ChatService.getChatHistory (snd σ'))
     = filter (λ i, i ≠ sid) (map id (ChatService.getChatHistory w))
  /\ (id (currentSession st) ≠ sid ->
      currentSession (fst σ') = currentSession st
      /\ sessionId (snd σ') = sessionId w)
  /\ (id (currentSession st) = sid ->
      messages (currentSession (fst σ')) = []
      /\ title (currentSession (fst σ')) = t env (utf16 "newChat")
      /\ id (currentSession (fst σ')) = ChatService.generateSessionId random36
      /\ sessionId (snd σ') = ChatService.generateSessionId random36).
Proof.
  intros σ'. subst σ'. unfold handleDeleteSession.
  pose proof (deleted_ids sid w) as Hd.
  destruct (decide (id (currentSession st) = sid)) as [Heq|Hne].
  - split; [done|]. split; [|split; [done|]].
    + by rewrite <- Hd.
    + intros _. by cbn.
  - split; [done|]. split; [done|]. split; [|done]. intros _. by cbn.
Qed.

(** After a new chat the request of a send reports the id of the session
    on screen. *)
Theorem request_reports_the_new_session env (random36 : jsstring) text image
    audio reply st w :
  nothing_to_send text image audio = false ->
  let σ1 := handleNewChat env random36 (st, w) in
  let σ2 := handleSend env text image audio reply σ1 in
  exists req, last (network (snd σ2)) = Some req
    /\ session_id req = id (currentSession (fst σ2))
    /\ session_id req = ChatService.generateSessionId random36.
Proof.
  intros H σ1 σ2. subst σ2 σ1.
  unfold handleNewChat, ChatService.resetSession, ChatService.getSessionId,
    Date_new, Date_now.
  cbn [sessionId clock reads localStorage network].
  match goal with |- context [handleSend _ _ _ _ _ (?a, ?b)] =>
    destruct (handleSend_network env text image audio reply a b H)
      as (Hn & _)
  end.
  eexists. split; [rewrite Hn; apply last_snoc|].
  cbn [session_id sessionId]. by rewrite handleSend_id.
Qed.

(** After a session of the index is selected, a send still reports the
    session id of [chatService]: when the selected session has another id,
    the request does not carry the id of the session on screen. *)
Theorem request_after_select (sid : jsstring) env text image audio reply st w
    (s : ChatSession) (i : nat) :
  nothing_to_send text image audio = false ->
  sessions st !! i = Some s -> id s = sid ->
  sid ≠ sessionId w ->
  let σ1 := handleSelectSession sid (st, w) in
  let σ2 := handleSend env text image audio reply σ1 in
  id (currentSession (fst σ2)) = sid
  /\ exists req, last (network (snd σ2)) = Some req
       /\ session_id req = sessionId w
       /\ session_id req ≠ id (currentSession (fst σ2)).
Proof.
  intros H Hs Hid Hne σ1 σ2. subst σ2 σ1. unfold handleSelectSession.
  destruct (list_find _ (sessions st)) as [[j x]|] eqn:E.
  - apply list_find_Some in E as (_ & Hx & _).
    rewrite handleSend_id. cbn [currentSession]. split; [done|].
    match goal with |- context [handleSend _ _ _ _ _ (?a, ?b)] =>
      destruct (handleSend_network env text image audio reply a b H)
        as (Hn & _)
    end.
    eexists. split; [rewrite Hn; apply last_snoc|].
    cbn [session_id]. split; [done|]. congruence.
  - apply list_find_None in E. rewrite Forall_forall in E.
    exfalso. apply (E s); eauto using list_elem_of_lookup_2.
Qed.

Lemma request_after_select_witness :
  let σ1 := handleSelectSession (utf16 "a") Sample.indexed in
  let σ2 := handleSend Sample.production Sample.hello None None
              Sample.answer σ1 in
  id (currentSession (fst σ2)) = utf16 "a"
  /\ exists req, last (network (snd σ2)) = Some req
       /\ session_id req = sessionId Sample.browser.
Proof.
  intros σ1 σ2.
  destruct (request_after_select (utf16 "a") Sample.production Sample.hello
              None None Sample.answer (fst Sample.indexed)
              (snd Sample.indexed) (Sample.session "a" 1) 0 eq_refl eq_refl
              eq_refl ltac:(vm_compute; discriminate))
    as (Hid & req & Hl & Hr & _).
  split; [exact Hid|]. exists req. split; [exact Hl | exact Hr].
Defined.

Lemma request_reports_the_new_session_witness :
  let σ1 := handleNewChat Sample.production (utf16 "0.k3v9x") 
              (Sample.fresh Sample.production) in
  let σ2 := handleSend Sample.production Sample.hello None None
              Sample.answer σ1 in
  exists req, last (network (snd σ2)) = Some req
    /\ session_id req = utf16 "session_k3v9x".
Proof.
  intros σ1 σ2.
  destruct (request_reports_the_new_session Sample.production
              (utf16 "0.k3v9x") Sample.hello None None Sample.answer
              (fst (Sample.fresh Sample.production))
              (snd (Sample.fresh Sample.production)) eq_refl)
    as (req & Hl & _ & Hr).
  exists req. split; [exact Hl | exact Hr].
Defined.


(** The date label of a session: ["today"] when it was updated less than
    24 hours ago, ["yesterday"] from 24 hours up to 48, and the date in the
    locale otherwise, also for a date in the future and for an invalid
    date. *)
Theorem formatDate_labels (env : Env) (toLocaleDateString : Date -> jsstring)
    (d : Z) (w : World) :
  in_range (clock w (reads w)) = true ->
  let now := clock w (reads w) in
  let label := fst (formatDate env toLocaleDateString (Time d) w) in
  (d <= now < d + 86400000 -> label = t env (utf16 "today"))
  /\ (d + 86400000 <= now < d + 172800000 ->
      label = t env (utf16 "yesterday"))
  /\ (now < d \/ d + 172800000 <= now -> label = toLocaleDateString (Time d))
  /\ fst (formatDate env toLocaleDateString InvalidDate w)
     = toLocaleDateString InvalidDate.
Proof.
  intros Hr now label. subst label now.
  unfold formatDate, Date_new, Date_now, TimeClip. rewrite Hr.
  cbn [fst]. set (now := clock w (reads w)).
  change (1000 * 60 * 60 * 24) with 86400000.
  split; [|split; [|split]].
  - intros Hd. rewrite decide_True; [done|]. f_equal.
    apply Z.div_small. lia.
  - intros Hd.
    assert ((now - d) / 86400000 = 1) as -> by (Z.div_mod_to_equations; lia).
    by rewrite decide_False, decide_True.
  - intros Hd.
    assert ((now - d) / 86400000 ≠ 0 /\ (now - d) / 86400000 ≠ 1) as [H0 H1]
      by (Z.div_mod_to_equations; lia).
    by rewrite !decide_False by congruence.
  - by rewrite !decide_False.
Qed.

Lemma formatDate_labels_witness :
  fst (formatDate Sample.production (λ _, utf16 "14/11/2023")
         (Time (1700000000000 - 3600000)) Sample.browser)
  = utf16 "Today".
Proof.
  destruct (formatDate_labels Sample.production (λ _, utf16 "14/11/2023")
              (1700000000000 - 3600000) Sample.browser eq_refl)
    as (Htoday & _).
  rewrite Htoday; [reflexivity | vm_compute; split; [discriminate|reflexivity]].
Defined.


Lemma history_keeps_last_fifty_witness :
  ChatService.getChatHistory
    (foldl (λ w s, ChatService.saveChatHistory s w)
       (ChatService.clearAllHistory Sample.browser) (Sample.numbered 51))
  = drop 1 (Sample.numbered 51).
Proof.
  apply (history_keeps_last_fifty (Sample.numbered 51) Sample.browser).
  - apply (bool_decide_unpack _). vm_compute. exact I.
  - apply (bool_decide_unpack _). vm_compute. exact I.
Defined.
End PageFacts.

(* ================================================================== *)
(** * More on the composer and the recorder *)
(* ================================================================== *)

Section ComposerFacts.
Import ChatInput.

Lemma truthy_or_undefined v : truthy_opt (or_undefined v) = truthy_opt v.
Proof. unfold or_undefined. by destruct (truthy_opt v) eqn:E. Qed.

(** The composer and the page agree.  While the page is loading, or the
    composer is disabled, [handleSend] does nothing.  When it does call
    [onSend], the text is the trimmed input, the page's own guard lets the
    call through, and the input and both attachments are reset while the
    recording state is kept.  When it makes no call, nothing changes. *)
Theorem composer_send (isLoading disabled : bool) (c : State) :
  let c' := fst (handleSend isLoading disabled c) in
  let call := snd (handleSend isLoading disabled c) in
  (isLoading || disabled = true -> call = None)
  /\ (call = None -> c' = c)
  /\ (forall text image audio, call = Some (text, image, audio) ->
      text = trim (input c)
      /\ ChatPage.nothing_to_send text image audio = false
      /\ input c' = [] /\ selectedImage c' = None /\ audioFile c' = None
      /\ isRecording c' = isRecording c
      /\ recordingTime c' = recordingTime c
      /\ mediaRecorderRef c' = mediaRecorderRef c
      /\ recordingIntervalRef c' = recordingIntervalRef c).
Proof.
  intros c' call. subst c' call. unfold handleSend.
  destruct (_ || isLoading || disabled) eqn:G; cbn [fst snd].
  - split; [done|]. split; [done|]. by intros.
  - apply orb_false_elim in G as [[G Hl]%orb_false_elim Hd].
    split; [by rewrite Hl, Hd|]. split; [done|].
    intros text image audio [= <- <- <-]. split; [done|].
    split; [|done]. unfold ChatPage.nothing_to_send.
    by rewrite trim_idem, !truthy_or_undefined.
Qed.

Lemma filter_remove_head (r : nat) (l : list nat) :
  r ∉ l -> filter (λ x, x ≠ r) (r :: l) = l.
Proof.
  intros H. rewrite filter_cons, decide_False by (by intros ?).
  induction l as [|x l IH]; [done|].
  apply not_elem_of_cons in H as [Hne Hl].
  rewrite filter_cons, decide_True by congruence. f_equal. auto.
Qed.

Lemma filter_remove_last (r : nat) (l : list nat) :
  r ∉ l -> filter (λ x, x ≠ r) (l ++ [r]) = l.
Proof.
  intros H. induction l as [|x l IH]; simpl.
  - by rewrite filter_cons, decide_False by (by intros ?).
  - apply not_elem_of_cons in H as [Hne Hl].
    rewrite filter_cons, decide_True by congruence. f_equal. auto.
Qed.

(** One recording, from start to finished clip.  After a granted start the
    component records from time 0 with no clip held; [stopRecording] ends
    the recording and clears its interval while the microphone is still
    live; once the recorder's [onstop] has run, the clip is held and the
    microphone, the recorders and the timers are as they were before. *)
Theorem record_then_stop (r : nat) (clip : jsstring) (c : State)
    (dev : Devices) :
  r ∉ liveStreams dev -> r ∉ activeRecorders dev -> r ∉ stopEvents dev ->
  nextTimer dev ∉ timers dev ->
  let σ1 := startRecording (Some r) (c, dev) in
  let σ2 := stopRecording σ1 in
  let σ3 := onstop r clip σ2 in
  (isRecording (fst σ1) = true /\ recordingTime (fst σ1) = 0
   /\ audioFile (fst σ1) = None /\ r ∈ liveStreams (snd σ1))
  /\ (isRecording (fst σ2) = false /\ recordingIntervalRef (fst σ2) = None
      /\ timers (snd σ2) = timers dev /\ r ∈ liveStreams (snd σ2))
  /\ (isRecording (fst σ3) = false /\ audioFile (fst σ3) = Some clip
      /\ liveStreams (snd σ3) = liveStreams dev
      /\ activeRecorders (snd σ3) = activeRecorders dev
      /\ stopEvents (snd σ3) = stopEvents dev
      /\ timers (snd σ3) = timers dev
      /\ input (fst σ3) = input c /\ selectedImage (fst σ3) = selectedImage c).
Proof.
  intros Hl Ha Hs Ht σ1 σ2 σ3. subst σ3 σ2 σ1.
  unfold startRecording, stopRecording, recorder_stop, clearInterval, onstop.
  cbn [fst snd isRecording mediaRecorderRef recordingIntervalRef
       activeRecorders liveStreams stopEvents timers nextTimer alerts
       input selectedImage audioFile recordingTime].
  rewrite decide_True by apply list_elem_of_here.
  cbn [fst snd isRecording mediaRecorderRef recordingIntervalRef
       activeRecorders liveStreams stopEvents timers nextTimer alerts
       input selectedImage audioFile recordingTime].
  rewrite !filter_remove_head, filter_remove_last by done.
  repeat split; apply list_elem_of_here.
Qed.

Lemma record_then_stop_witness :
  isRecording (fst Sample.composer) = false
  /\ audioFile (fst Sample.composer)
     = Some (utf16 "data:audio/webm;base64,GkXf")
  /\ liveStreams (snd Sample.composer) = []
  /\ timers (snd Sample.composer) = [].
Proof.
  destruct (record_then_stop 7 (utf16 "data:audio/webm;base64,GkXf")
              (mkState [] None false 0 None None None)
              (mkDevices [] [] [] [] 1 0)
              ltac:(apply not_elem_of_nil) ltac:(apply not_elem_of_nil)
              ltac:(apply not_elem_of_nil) ltac:(apply not_elem_of_nil))
    as (_ & _ & Hr & Ha & Hl & _ & _ & Ht & _).
  split; [exact Hr|]. split; [exact Ha|]. split; [exact Hl | exact Ht].
Defined.

(** A start that is refused (no permission, no device) leaves the
    component not recording with nothing acquired and shows one alert;
    granted or refused, a start discards the clip that was held. *)
Theorem start_refused_or_granted (grant : option nat) (c : State)
    (dev : Devices) :
  let σ' := startRecording grant (c, dev) in
  audioFile (fst σ') = None
  /\ input (fst σ') = input c /\ selectedImage (fst σ') = selectedImage c
  /\ (grant = None ->
      isRecording (fst σ') = isRecording c
      /\ mediaRecorderRef (fst σ') = mediaRecorderRef c
      /\ liveStreams (snd σ') = liveStreams dev
      /\ activeRecorders (snd σ') = activeRecorders dev
      /\ timers (snd σ') = timers dev
      /\ alerts (snd σ') = S (alerts dev))
  /\ (forall r, grant = Some r ->
      isRecording (fst σ') = true /\ mediaRecorderRef (fst σ') = Some r
      /\ liveStreams (snd σ') = r :: liveStreams dev
      /\ alerts (snd σ') = alerts dev).
Proof. destruct grant; cbn; repeat split; congruence. Qed.

Lemma two_digit_seconds_checked :
  all_from (λ n, bool_decide (padStart 2 48%N (Number_toString n) = pad2 n))
    0 60 = true.
Proof. vm_compute. reflexivity. Qed.

(** The recording time is shown as minutes, a colon, and always two digits
    of seconds. *)
Theorem formatTime_two_digit_seconds (seconds : Z) :
  0 <= seconds ->
  formatTime seconds
  = Number_toString (seconds / 60) ++ utf16 ":" ++ pad2 (seconds mod 60)
  /\ length (formatTime seconds)
     = (length (Number_toString (seconds / 60)) + 3)%nat.
Proof.
  intros H. unfold formatTime.
  assert (E : padStart 2 48%N (Number_toString (seconds mod 60))
              = pad2 (seconds mod 60)).
  { pose proof (Z.mod_pos_bound seconds 60 ltac:(lia)) as Hb.
    pose proof (all_from_spec _ _ _ two_digit_seconds_checked
                  (seconds mod 60) ltac:(lia)) as Hc.
    by apply bool_decide_eq_true_1 in Hc. }
  rewrite E. split; [done|]. rewrite !length_app. simpl. lia.
Qed.

Lemma formatTime_two_digit_seconds_witness :
  formatTime 75 = utf16 "1:15".
Proof.
  rewrite (proj1 (formatTime_two_digit_seconds 75 ltac:(lia))).
  vm_compute. reflexivity.
Defined.
End ComposerFacts.
